(** * fzy_kmeans_rs helper scripts: a model of [scripts/gen_ex_data.py]
      and [scripts/plot_comparison.py]

    The two scripts are straight-line programs over the file system, the
    numpy random generator, pandas frames and matplotlib.  They are modelled
    here as computations in a state-and-exception monad over a [World] that
    holds the random generator, the directories and files on disk, the
    environment variables of the process, and the chronological log of
    the library calls with an outside effect.

    Floating-point numbers and their text form are an interface
    ([Float64]); so are the random generator ([Rng]) and the two pure
    [os.path] helpers ([OsPath]).  Everything the scripts do themselves is
    written out.  Failures of the environment (a directory that cannot be
    created, a file that cannot be written, a window that cannot open)
    are outside the model: [os.mkdir] on a free path, [to_csv] and the
    plotting calls always go through.  The files read are taken in the
    format the two scripts exchange, fields separated by [;] and never
    quoted: the reader cuts a line at every separator.  Where a
    statement depends on how a file of any origin is cut into records,
    it is made for lines without the quote character ([quote_free]). *)

From Stdlib Require Import ZArith Ascii String List Lia.
From Stdlib Require Import Decimal DecimalString DecimalNat DecimalZ.
From stdpp Require Import base option list strings gmap.

Local Open Scope string_scope.
Local Open Scope list_scope.

(** ** Text helpers *)

(** [str(i)] for a Python int: the decimal digits, with a leading [-]
    below zero. *)
Definition str_of_Z (z : Z) : string := NilZero.string_of_int (Z.to_int z).

(** The integer inside an f-string, [f"{i}"], for a loop counter. *)
Definition str_of_nat (n : nat) : string := NilZero.string_of_uint (Nat.to_uint n).

(** [range(n)] *)
Definition range (n : nat) : list nat := seq 0 n.

(** [enumerate(xs)] *)
Definition enumerate {A} (xs : list A) : list (nat * A) :=
  combine (seq 0 (length xs)) xs.

(** [sep.join(fields)] for a one-character separator. *)
Fixpoint join_fields (sep : ascii) (fields : list string) : string :=
  match fields with
  | [] => ""
  | [f] => f
  | f :: rest => f +:+ String sep (join_fields sep rest)
  end.

(** A line cut at every occurrence of the separator.  Quote characters
    get no special treatment; see [quote_free]. *)
Fixpoint split_fields (sep : ascii) (line : string) : list string :=
  match line with
  | EmptyString => [""]
  | String c rest =>
      if Ascii.eqb c sep then "" :: split_fields sep rest
      else match split_fields sep rest with
           | f :: fs => String c f :: fs
           | [] => [String c ""]
           end
  end.

(** The characters of a string, to state that a field is free of the
    separator. *)
Definition chars (s : string) : list ascii := list_ascii_of_string s.

Definition sep_free (sep : ascii) (s : string) : Prop := sep ∉ chars s.

(** The double quote, which [read_csv] takes as the start of a quoted
    field. *)
Definition quote_char : ascii := "034"%char.

(** A line without the quote character: on such lines cutting at the
    separator is all there is to tokenizing. *)
Definition quote_free (line : string) : Prop := quote_char ∉ chars line.

(** The cell texts [read_csv] takes as missing values by default. *)
Definition na_values : list string :=
  [""; "#N/A"; "#N/A N/A"; "#NA"; "-1.#IND"; "-1.#QNAN"; "-NaN"; "-nan";
   "1.#IND"; "1.#QNAN"; "<NA>"; "N/A"; "NA"; "NULL"; "NaN"; "None"; "n/a";
   "nan"; "null"].

(** ** Interfaces to the libraries *)

(** Double-precision floats as the scripts see them.  [f_repr] is the text
    [DataFrame.to_csv] writes for a float cell, [f_parse] the conversion
    [read_csv] applies to a field under [dtype="float"]: the number the
    text stands for, NaN for a missing-value marker ([na_values]), and
    [None] when the text is neither and pandas raises [ValueError].
    Equality of the carrier is the identity pandas' hash table uses in
    [Series.unique]; [f_eqb] is the element-wise [==]. *)
Class Float64 (F : Type) := {
  f_eq_dec :: EqDecision F;
  f_eqb : F → F → bool;
  f_lit : string → F;
  f_of_int : Z → F;
  f_nan : F;
  f_repr : F → string;
  f_parse : string → option F
}.

(** The numpy generator behind [np.random]: one draw at a time from the
    hidden generator state. *)
Class Rng (G F : Type) := {
  uniform1 : F → F → G → F * G;
  normal1 : F → F → G → F * G
}.

(** The pure path helpers of [os.path]. *)
Class OsPath := {
  dirname : string → string;
  abspath : string → string
}.

(** ** Frames *)

(** A column: pandas keeps one dtype per column; the scripts only meet
    [int64] and [float64]. *)
Inductive Series (F : Type) : Type :=
| SInt (xs : list Z)
| SFloat (xs : list F).
Arguments SInt {F} xs.
Arguments SFloat {F} xs.

(** A frame: its columns in insertion order.  The row labels are left
    out: the Generator writes with [index=False] and the Comparator never
    looks at them. *)
Definition DataFrame (F : Type) : Type := list (string * Series F).

(** The exceptions the modelled calls can raise. *)
Inductive Exn : Type :=
| FileNotFoundError
| FileExistsError
| KeyError
| ValueError
| ParserError.

(** The library calls that reach outside the process, as logged. *)
Inductive Event (F : Type) : Type :=
| EvMkdir (path : string)
| EvPairplot (df : DataFrame F) (hue : string)
| EvShow
| EvToCsv (path : string)
| EvReadCsv (path : string) (sep : ascii) (names : list string) (skiprows : nat)
| EvSubplots (nrows ncols : nat)
| EvScatter (ax : nat) (x y : Series F)
            (color : option string) (s : option Z) (marker : option string)
| EvSetTitle (ax : nat) (title : string).
Arguments EvMkdir {F} path.
Arguments EvPairplot {F} df hue.
Arguments EvShow {F}.
Arguments EvToCsv {F} path.
Arguments EvReadCsv {F} path sep names skiprows.
Arguments EvSubplots {F} nrows ncols.
Arguments EvScatter {F} ax x y color s marker.
Arguments EvSetTitle {F} ax title.

(** What a run can see and change: the state of the random generator,
    the directories and the text files on disk, the calls logged so far,
    and the environment variables of the process ([os.environ]).  A text
    file is the list of its lines, cut where [read_csv] ends a line. *)
Record World (G F : Type) : Type := mkWorld {
  rng : G;
  dirs : gset string;
  files : gmap string (list string);
  log : list (Event F);
  environ : gmap string string
}.
Arguments mkWorld {G F} rng dirs files log environ.
Arguments rng {G F} w.
Arguments dirs {G F} w.
Arguments files {G F} w.
Arguments log {G F} w.
Arguments environ {G F} w.

Section Series_ops.
Context {F : Type} `{!Float64 F}.

Definition s_len (s : Series F) : nat :=
  match s with SInt xs => length xs | SFloat xs => length xs end.

(** The values of a column as floats ([astype(float)]). *)
Definition to_floats (s : Series F) : list F :=
  match s with SInt xs => map f_of_int xs | SFloat xs => xs end.


(** The cells of a column as [to_csv] writes them. *)
Definition series_text (s : Series F) : list string :=
  match s with SInt xs => map str_of_Z xs | SFloat xs => map f_repr xs end.

Definition columns (df : DataFrame F) : list string := map fst df.

Definition nrows (df : DataFrame F) : nat :=
  match df with [] => 0 | (_, s) :: _ => s_len s end.

(** [df[name]] *)
Fixpoint df_get (df : DataFrame F) (name : string) : option (Series F) :=
  match df with
  | [] => None
  | (n, s) :: rest => if String.eqb n name then Some s else df_get rest name
  end.

(** The column list after [df[name] = s]: an existing column is replaced
    in place, a new one goes last. *)
Fixpoint put_column (df : DataFrame F) (name : string) (s : Series F) : DataFrame F :=
  match df with
  | [] => [(name, s)]
  | (n, s0) :: rest =>
      if String.eqb n name then (n, s) :: rest
      else (n, s0) :: put_column rest name s
  end.

(** [df[name] = values]: a frame without rows takes the length of the
    values assigned, the columns it has being filled with NaN; on a frame
    with rows, values of another length are a [ValueError]. *)
Definition setitem (df : DataFrame F) (name : string) (s : Series F)
  : Exn + DataFrame F :=
  if Nat.eqb (s_len s) (nrows df) then inr (put_column df name s)
  else if Nat.eqb (nrows df) 0
       then inr (put_column
                   (map (λ col, (col.1, SFloat (replicate (s_len s) f_nan))) df)
                   name s)
       else inl ValueError.

(** Values seen so far are skipped: the distinct values in order of first
    appearance. *)
Fixpoint unique_from {A} `{!EqDecision A} (seen xs : list A) : list A :=
  match xs with
  | [] => []
  | x :: rest =>
      if decide (x ∈ seen) then unique_from seen rest
      else x :: unique_from (x :: seen) rest
  end.

(** [series.unique()] *)
Definition unique (s : Series F) : list F := unique_from [] (to_floats s).

(** [series == v], element-wise. *)
Definition series_eq (s : Series F) (v : F) : list bool :=
  map (λ x, f_eqb x v) (to_floats s).

Fixpoint mask_list {A} (mask : list bool) (xs : list A) : list A :=
  match mask, xs with
  | b :: mask', x :: xs' => if b then x :: mask_list mask' xs' else mask_list mask' xs'
  | _, _ => []
  end.

Definition mask_series (mask : list bool) (s : Series F) : Series F :=
  match s with
  | SInt xs => SInt (mask_list mask xs)
  | SFloat xs => SFloat (mask_list mask xs)
  end.

(** [df[mask]] for a boolean mask as long as the frame. *)
Definition df_mask (df : DataFrame F) (mask : list bool) : DataFrame F :=
  map (λ '(n, s), (n, mask_series mask s)) df.

(** Two pieces of one column put end to end; an [int64] piece next to a
    [float64] piece is widened. *)
Definition concat_series (a b : Series F) : Series F :=
  match a, b with
  | SInt xs, SInt ys => SInt (xs ++ ys)
  | _, _ => SFloat (to_floats a ++ to_floats b)
  end.

(** The piece a frame contributes to column [name] in [pd.concat]: its
    own column, or one NaN per row when it has none. *)
Definition column_piece (name : string) (df : DataFrame F) : Series F :=
  match df_get df name with
  | Some s => s
  | None => SFloat (replicate (nrows df) f_nan)
  end.

Definition concat_column (name : string) (dfs : list (DataFrame F)) : Series F :=
  match dfs with
  | [] => SFloat []
  | d :: rest => fold_left (λ acc d', concat_series acc (column_piece name d'))
                           rest (column_piece name d)
  end.

(** [pd.concat(dfs)]: rows of the frames in order, columns by name in
    order of first appearance; no frames at all is a [ValueError]. *)
Definition pd_concat (dfs : list (DataFrame F)) : Exn + DataFrame F :=
  match dfs with
  | [] => inl ValueError
  | _ => inr (map (λ n, (n, concat_column n dfs))
                  (unique_from [] (flat_map columns dfs)))
  end.

(** [df[cols]] as [to_csv(columns=cols)] selects it. *)
Fixpoint select_columns (df : DataFrame F) (cols : list string)
  : Exn + DataFrame F :=
  match cols with
  | [] => inr []
  | c :: rest =>
      match df_get df c, select_columns df rest with
      | Some s, inr sel => inr ((c, s) :: sel)
      | None, _ => inl KeyError
      | _, inl e => inl e
      end
  end.

(** The text of row [i]: one cell per column. *)
Definition row_text (df : DataFrame F) (i : nat) : list string :=
  map (λ '(_, s), nth i (series_text s) "") df.

(** The lines [to_csv(sep=sep, index=False)] writes: the header, then one
    line per row. *)
Definition csv_lines (sep : ascii) (df : DataFrame F) : list string :=
  join_fields sep (columns df)
    :: map (λ i, join_fields sep (row_text df i)) (range (nrows df)).

(** *** Reading *)

(** A blank line: nothing in it, or nothing but spaces and tabs (a
    separator that is a space or a tab does not count as blank). *)
Fixpoint is_blank (sep : ascii) (line : string) : bool :=
  match line with
  | EmptyString => true
  | String c rest =>
      (Ascii.eqb c " "%char || Ascii.eqb c "009"%char)
      && negb (Ascii.eqb c sep) && is_blank sep rest
  end.

(** The records [read_csv] tokenizes: the first [skiprows] lines are
    dropped, then every blank line ([skip_blank_lines] is on by
    default). *)
Definition data_lines (sep : ascii) (skiprows : nat) (lines : list string)
  : list string :=
  filter (λ l, is_blank sep l = false) (drop skiprows lines).

(** The number of fields per record the reader settles on: that of the
    first record, and no less than the number of names. *)
Definition table_width (sep : ascii) (names : list string) (recs : list string)
  : nat :=
  match recs with
  | [] => length names
  | first :: _ => Nat.max (length names) (length (split_fields sep first))
  end.

(** One record cut into fields: a short record is filled up with missing
    cells, a record with more fields than the table is wide is a
    [ParserError]. *)
Definition tokenize (sep : ascii) (width : nat) (line : string)
  : Exn + list (option string) :=
  let fs := split_fields sep line in
  if Nat.ltb width (length fs) then inl ParserError
  else inr (map Some fs ++ replicate (width - length fs) None).

Fixpoint map_exn {A B} (f : A → Exn + B) (xs : list A) : Exn + list B :=
  match xs with
  | [] => inr []
  | x :: rest =>
      match f x with
      | inl e => inl e
      | inr y => match map_exn f rest with
                 | inl e => inl e
                 | inr ys => inr (y :: ys)
                 end
      end
  end.

(** A cell under [dtype="float"]: a cell filled in for a short record is
    NaN, a text that the conversion rejects is a [ValueError]. *)
Definition convert_cell (c : option string) : Exn + F :=
  match c with
  | None => inr f_nan
  | Some t => match f_parse t with
              | Some x => inr x
              | None => inl ValueError
              end
  end.

(** Column [j] of the tokenized records, converted. *)
Definition convert_column (recs : list (list (option string))) (j : nat)
  : Exn + Series F :=
  match map_exn (λ r, convert_cell (nth j r None)) recs with
  | inl e => inl e
  | inr xs => inr (SFloat xs)
  end.

(** [pd.read_csv(..., sep=sep, names=names, dtype="float",
    skiprows=skiprows)] on the lines of the file: all records are
    tokenized first, then the columns are converted one by one.  When
    the first record has more fields than there are names, the names go
    to the last columns and the leading ones become the row labels; they
    are converted like the others and then leave the frame. *)
Definition parse_csv (sep : ascii) (names : list string) (skiprows : nat)
    (lines : list string) : Exn + DataFrame F :=
  let recs := data_lines sep skiprows lines in
  let width := table_width sep names recs in
  match map_exn (tokenize sep width) recs with
  | inl e => inl e
  | inr rows =>
      match map_exn (convert_column rows) (seq 0 width) with
      | inl e => inl e
      | inr cols => inr (combine names (drop (width - length names) cols))
      end
  end.

End Series_ops.

(** ** The monad of the scripts *)

Section Scripts.
Context {F G : Type} `{!Float64 F} `{!Rng G F} `{!OsPath}.

(** A computation changes the world and ends with a value or with an
    uncaught exception; what was written before the exception stays. *)
Definition M (A : Type) : Type := World G F → (Exn + A) * World G F.

Definition ret {A} (a : A) : M A := λ w, (inr a, w).

Definition bind {A B} (m : M A) (k : A → M B) : M B :=
  λ w, match m w with
       | (inl e, w') => (inl e, w')
       | (inr a, w') => k a w'
       end.

Definition lift {A} (r : Exn + A) : M A := λ w, (r, w).

Definition emit (e : Event F) : M unit :=
  λ w, (inr tt, mkWorld (rng w) (dirs w) (files w) (log w ++ [e]) (environ w)).

Notation "'do' x <- m ; k" := (bind m (λ x, k))
  (at level 10, x name, m at level 100, k at level 200).
Notation "'do' ' p <- m ; k" := (bind m (λ x, match x with p => k end))
  (at level 10, p pattern, m at level 100, k at level 200).
Notation "m ;; k" := (bind m (λ _, k))
  (at level 100, k at level 200, right associativity).

(** A [for] loop that rebinds a variable in its body. *)
Fixpoint foldM {A B} (body : B → A → M B) (xs : list A) (acc : B) : M B :=
  match xs with
  | [] => ret acc
  | x :: rest => do acc' <- body acc x; foldM body rest acc'
  end.

(** A [for] loop run for its effects. *)
Definition for_each {A} (xs : list A) (body : A → M unit) : M unit :=
  foldM (λ _ x, body x) xs tt.

(** *** numpy *)

Fixpoint draws (draw : G → F * G) (n : nat) (g : G) : list F * G :=
  match n with
  | 0 => ([], g)
  | S n' => let (x, g1) := draw g in
            let (xs, g2) := draws draw n' g1 in
            (x :: xs, g2)
  end.

Definition with_rng {A} (f : G → A * G) : M A :=
  λ w, let (a, g) := f (rng w) in
       (inr a, mkWorld g (dirs w) (files w) (log w) (environ w)).

(** [np.random.uniform(low=low, high=high, size=(size))] *)
Definition np_random_uniform (low high : F) (size : nat) : M (list F) :=
  with_rng (draws (uniform1 low high) size).

(** [np.random.normal(loc=loc, scale=scale, size=(size))] *)
Definition np_random_normal (loc scale : F) (size : nat) : M (list F) :=
  with_rng (draws (normal1 loc scale) size).

(** *** os *)

Definition path_exists (w : World G F) (p : string) : bool :=
  bool_decide (p ∈ dirs w) || bool_decide (is_Some (files w !! p)).

(** [os.path.exists(p)] *)
Definition os_path_exists (p : string) : M bool :=
  λ w, (inr (path_exists w p), w).

(** [os.mkdir(p)] *)
Definition os_mkdir (p : string) : M unit :=
  λ w, if path_exists w p then (inl FileExistsError, w)
       else (inr tt, mkWorld (rng w) ({[p]} ∪ dirs w) (files w)
                             (log w ++ [EvMkdir p]) (environ w)).

(** *** pandas *)

(** [df[name]] *)
Definition getitem (df : DataFrame F) (name : string) : M (Series F) :=
  lift (match df_get df name with Some s => inr s | None => inl KeyError end).

(** [df.to_csv(path, sep=sep, index=False, columns=cols)]; [cols = None]
    writes every column. *)
Definition to_csv (df : DataFrame F) (path : string) (sep : ascii)
    (cols : option (list string)) : M unit :=
  do sel <- lift (match cols with
                  | None => inr df
                  | Some cs => select_columns df cs
                  end);
  λ w, (inr tt, mkWorld (rng w) (dirs w)
                        (<[path := csv_lines sep sel]> (files w))
                        (log w ++ [EvToCsv path]) (environ w)).

(** [pd.read_csv(path, sep=sep, names=names, dtype="float",
    skiprows=skiprows)] *)
Definition read_csv (path : string) (sep : ascii) (names : list string)
    (skiprows : nat) : M (DataFrame F) :=
  emit (EvReadCsv path sep names skiprows);;
  λ w, match files w !! path with
       | None => (inl FileNotFoundError, w)
       | Some lines => (parse_csv sep names skiprows lines, w)
       end.

(** *** seaborn and matplotlib *)

Definition sns_pairplot (df : DataFrame F) (hue : string) : M unit :=
  emit (EvPairplot df hue).

Definition plt_show : M unit := emit EvShow.

Definition plt_subplots (nr nc : nat) : M unit := emit (EvSubplots nr nc).

(** [ax[i].scatter(x, y, color=color, s=s, marker=marker)]; absent
    keywords are [None].  [x] and [y] of different sizes are a
    [ValueError]. *)
Definition ax_scatter (i : nat) (x y : Series F) (color : option string)
    (s : option Z) (marker : option string) : M unit :=
  if Nat.eqb (s_len x) (s_len y) then emit (EvScatter i x y color s marker)
  else lift (inl ValueError).

Definition ax_set_title (i : nat) (title : string) : M unit :=
  emit (EvSetTitle i title).

(** ** scripts/gen_ex_data.py *)

Definition N_SAMPLES : nat := 100.
Definition N_DIMS : nat := 2.
Definition N_CLASSES : nat := 3.

(** Lines 14 and 5: the output directory next to the script. *)
Definition out_path (file : string) : string :=
  abspath (dirname file +:+ "/../files").

(** Lines 21-28: the body of the loop over the classes, up to the frame
    it appends. *)
Definition class_frame (cls : nat) : M (DataFrame F) :=
  let tmp : DataFrame F := [] in
  do locs <- np_random_uniform (f_lit "0.0") (f_lit "1.0") N_DIMS;
  do stds <- np_random_uniform (f_lit "0.0") (f_lit "0.15") N_DIMS;
  do tmp <- foldM (λ tmp '(i, (std, loc)),
              do xs <- np_random_normal loc std N_SAMPLES;
              lift (setitem tmp ("feature_" +:+ str_of_nat i) (SFloat xs)))
            (enumerate (combine stds locs)) tmp;
  do tmp <- lift (setitem tmp "cls"
                    (SInt (map (λ _, Z.of_nat cls) (range N_SAMPLES))));
  ret tmp.

(** Lines 19-30: the dataset. *)
Definition make_dataset : M (DataFrame F) :=
  do dfs <- foldM (λ dfs cls, do tmp <- class_frame cls; ret (dfs ++ [tmp]))
              (range N_CLASSES) [];
  lift (pd_concat dfs).

(** Lines 35-38: the two files. *)
Definition write_files (file : string) (df : DataFrame F) : M unit :=
  to_csv df (out_path file +:+ "/sample_data.csv") ";"
         (Some (map (λ i, "feature_" +:+ str_of_nat i) (range N_DIMS)));;
  to_csv df (out_path file +:+ "/ground_truth.csv") ";" None.

(** The whole script, run as [file] with the arguments [argv].  The value
    returned is the module global [df] as the script leaves it. *)
Definition gen_ex_data (file : string) (argv : list string)
  : M (DataFrame F) :=
  do present <- os_path_exists (out_path file);
  (if negb present then os_mkdir (out_path file) else ret tt);;
  do df <- make_dataset;
  (if bool_decide ("--plot" ∈ argv)
   then sns_pairplot df "cls";; plt_show
   else ret tt);;
  write_files file df;;
  ret df.

(** ** scripts/plot_comparison.py *)

Definition names3 : list string := ["feature_1"; "feature_2"; "cls"].
Definition names2 : list string := ["feature_1"; "feature_2"].

(** Lines 7-13: the three frames. *)
Definition load_inputs (file : string)
  : M (DataFrame F * DataFrame F * DataFrame F) :=
  do prediction <- read_csv (out_path file +:+ "/predicted_classes.csv")
                            ";" names3 0;
  do ground_truth <- read_csv (out_path file +:+ "/ground_truth.csv")
                              ";" names3 1;
  do cluster_centers <- read_csv (out_path file +:+ "/clusters.csv")
                                 ";" names2 0;
  ret (prediction, ground_truth, cluster_centers).

(** Lines 16-18 and 20-22: one scatter call per distinct class of
    [df], on axes [i]. *)
Definition scatter_classes (i : nat) (df : DataFrame F) : M unit :=
  do cls <- getitem df "cls";
  for_each (unique cls) (λ c,
    do col <- getitem df "cls";
    let tmp := df_mask df (series_eq col c) in
    do x <- getitem tmp "feature_1";
    do y <- getitem tmp "feature_2";
    ax_scatter i x y None None None).

(** Lines 14-28: the figure. *)
Definition draw (prediction ground_truth cluster_centers : DataFrame F)
  : M unit :=
  plt_subplots 2 1;;
  scatter_classes 0 prediction;;
  scatter_classes 1 ground_truth;;
  do cx <- getitem cluster_centers "feature_1";
  do cy <- getitem cluster_centers "feature_2";
  ax_scatter 0 cx cy (Some "red") (Some 50%Z) (Some "x");;
  ax_set_title 0 "Prediction";;
  ax_set_title 1 "Ground Truth";;
  plt_show.

(** The whole script, run as [file].  The value returned is the three
    module globals [prediction], [ground_truth] and [cluster_centers] as
    the script leaves them. *)
Definition plot_comparison (file : string)
  : M (DataFrame F * DataFrame F * DataFrame F) :=
  do '(prediction, ground_truth, cluster_centers) <- load_inputs file;
  draw prediction ground_truth cluster_centers;;
  ret (prediction, ground_truth, cluster_centers).

End Scripts.

(** ** Vocabulary of the statements *)

(** The labels of a dataset of [k] classes with [n] samples each, class
    after class. *)
Definition grouped_labels (k n : nat) : list Z :=
  flat_map (λ c, replicate n (Z.of_nat c)) (range k).

(** The frame the Generator builds from the draws [xs] and [ys]. *)
Definition dataset {F} (xs ys : list F) : DataFrame F :=
  [("feature_0", SFloat xs); ("feature_1", SFloat ys);
   ("cls", SInt (grouped_labels N_CLASSES N_SAMPLES))].

(** Its two feature columns alone. *)
Definition features {F} (xs ys : list F) : DataFrame F :=
  [("feature_0", SFloat xs); ("feature_1", SFloat ys)].

Definition is_read {F} (e : Event F) : bool :=
  match e with EvReadCsv _ _ _ _ => true | _ => false end.

Definition is_plot {F} (e : Event F) : bool :=
  match e with EvPairplot _ _ | EvShow => true | _ => false end.

Definition is_write {F} (e : Event F) : bool :=
  match e with EvToCsv _ => true | _ => false end.

(** The [read_csv] calls of a log, with their arguments. *)
Definition read_calls {F} (evs : list (Event F))
  : list (string * ascii * list string * nat) :=
  omap (λ e, match e with
             | EvReadCsv p s ns k => Some (p, s, ns, k)
             | _ => None
             end) evs.

(** The scatter series drawn on axes [i], with their keywords. *)
Definition series_on {F} (i : nat) (evs : list (Event F))
  : list (Series F * Series F * option string * option Z * option string) :=
  omap (λ e, match e with
             | EvScatter j x y c s m =>
                 if Nat.eqb j i then Some (x, y, c, s, m) else None
             | _ => None
             end) evs.

(** A series drawn without colour, size or marker: matplotlib takes the
    next colour of its cycle. *)
Definition auto_coloured {F}
    (sr : Series F * Series F * option string * option Z * option string) : bool :=
  match sr with (_, _, None, None, None) => true | _ => false end.

Definition x_marked {F}
    (sr : Series F * Series F * option string * option Z * option string) : bool :=
  match sr with (_, _, _, _, Some m) => String.eqb m "x" | _ => false end.

(** The three [read_csv] calls of the Comparator run as [file]: path,
    separator, assigned names, lines skipped. *)
Definition comparator_inputs `{!OsPath} (file : string)
  : list (string * ascii * list string * nat) :=
  [(out_path file +:+ "/predicted_classes.csv", ";"%char,
    ["feature_1"; "feature_2"; "cls"], 0);
   (out_path file +:+ "/ground_truth.csv", ";"%char,
    ["feature_1"; "feature_2"; "cls"], 1);
   (out_path file +:+ "/clusters.csv", ";"%char,
    ["feature_1"; "feature_2"], 0)].

(** The [read_csv] calls of the Comparator as events. *)
Definition read_events {F} `{!OsPath} (file : string) : list (Event F) :=
  map (λ '(p, s, ns, k), EvReadCsv p s ns k) (comparator_inputs file).

(** The scatter call for class [v] of a frame with feature columns [a],
    [b] and label column [c]. *)
Definition class_series {F} `{!Float64 F} (i : nat) (a b c : list F) (v : F)
  : Event F :=
  EvScatter i (SFloat (mask_list (map (λ x, f_eqb x v) c) a))
              (SFloat (mask_list (map (λ x, f_eqb x v) c) b)) None None None.

(** The calls of lines 14-28 for the three loaded frames. *)
Definition figure_events {F} `{!Float64 F} (pa pb pc ga gb gc ca cb : list F)
  : list (Event F) :=
  [EvSubplots 2 1]
    ++ map (class_series 0 pa pb pc) (unique_from [] pc)
    ++ map (class_series 1 ga gb gc) (unique_from [] gc)
    ++ [EvScatter 0 (SFloat ca) (SFloat cb) (Some "red") (Some 50%Z) (Some "x");
        EvSetTitle 0 "Prediction"; EvSetTitle 1 "Ground Truth"; EvShow].

Definition is_mkdir {F} (e : Event F) : bool :=
  match e with EvMkdir _ => true | _ => false end.

(** The number of points of a scatter series. *)
Definition series_size {F}
    (sr : Series F * Series F * option string * option Z * option string) : nat :=
  match sr with (x, _, _, _, _) => s_len x end.

(** A world in which some other program has written the file [path]. *)
Definition put_file {G F} (w : World G F) (path : string) (lines : list string)
  : World G F :=
  mkWorld (rng w) (dirs w) (<[path := lines]> (files w)) (log w) (environ w).

(** A computation that only draws from the generator: its result and the
    generator it leaves are fixed by the generator it starts from, and
    disk and log stay as they are. *)
Definition rng_only {F G A} (m : @M F G A) : Prop :=
  ∀ g, ∃ r g', ∀ d f lg env,
    m (mkWorld g d f lg env) = (r, mkWorld g' d f lg env).

(** The world after some more logged calls. *)
Definition logged {G F} (w : World G F) (evs : list (Event F)) : World G F :=
  mkWorld (rng w) (dirs w) (files w) (log w ++ evs) (environ w).

(** What a [read_csv] call returns in a world. *)
Definition read_result {G F} `{!Float64 F} (w : World G F) (path : string)
    (names : list string) (k : nat) : Exn + DataFrame F :=
  match files w !! path with
  | None => inl FileNotFoundError
  | Some lines => parse_csv ";" names k lines
  end.

(** The same world under other environment variables. *)
Definition set_environ {G F} (w : World G F) (env : gmap string string)
  : World G F :=
  mkWorld (rng w) (dirs w) (files w) (log w) env.

(** The points of a frame with the feature columns [a] and [b] and the
    label column [c] whose label is [==] to [v], in the order of the
    rows. *)
Definition class_points {F} `{!Float64 F} (v : F) (a b c : list F)
  : list (F * F) :=
  map fst (filter (λ r, f_eqb r.2 v = true) (combine (combine a b) c)).

(** The points whose label is the value [v] itself. *)
Definition labelled_points {F} `{!Float64 F} (v : F) (a b c : list F)
  : list (F * F) :=
  map fst (filter (λ r, r.2 = v) (combine (combine a b) c)).

(** The scatter series of some points, drawn without keywords. *)
Definition plain_series {F} (pts : list (F * F))
  : Series F * Series F * option string * option Z * option string :=
  (SFloat (map fst pts), SFloat (map snd pts), None, None, None).

(** The frames [read_csv] returns for the names of the Comparator:
    float columns under the assigned names. *)
Definition labelled_frame {F} (a b c : list F) : DataFrame F :=
  [("feature_1", SFloat a); ("feature_2", SFloat b); ("cls", SFloat c)].

Definition centers_frame {F} (a b : list F) : DataFrame F :=
  [("feature_1", SFloat a); ("feature_2", SFloat b)].

(** The value a cell text reads as, NaN when it is no number. *)
Definition reread {F} `{!Float64 F} (t : string) : F :=
  default f_nan (f_parse t).

(** What the round trip of a float through its text needs: the text
    carries no separator, reads back as a float [close] to the one
    written, and the text of an integer a double holds exactly reads as
    that integer. *)
Class FloatText (F : Type) `{!Float64 F} (close : F → F → Prop) : Prop := {
  repr_sep_free : ∀ x : F, sep_free ";" (f_repr x);
  parse_repr : ∀ x : F, ∃ y, f_parse (f_repr x) = Some y ∧ close x y;
  parse_int : ∀ n : Z, (0 ≤ n < 2 ^ 53)%Z → f_parse (str_of_Z n) = Some (f_of_int n)
}.

(** ** A small instance to run the model on *)

Module Demo.

(** Floats that are whole numbers (of a size written without exponent)
    or NaN.  A whole float is written with [.0] after its digits and NaN
    as the empty cell; the missing-value markers read as NaN, and a text
    reads as a whole number when it is a decimal integer, alone or
    followed by a point and zeros.  Texts of other numbers have no value
    in this instance. *)
Definition IntFloat : Type := option Z.

Definition int_text (s : string) : option Z :=
  Z.of_int <$> NilZero.int_of_string s.

Definition is_zero (c : ascii) : bool := Ascii.eqb c "0"%char.

Definition whole_text (s : string) : option Z :=
  match split_fields "." s with
  | [a] => int_text a
  | [a; zeros] => if forallb is_zero (chars zeros) then int_text a else None
  | _ => None
  end.

#[export] Instance IntFloat_float : Float64 IntFloat := {|
  f_eqb := λ a b, match a, b with
                  | Some x, Some y => Z.eqb x y
                  | _, _ => false
                  end;
  f_lit := λ s, Some (default 0%Z (whole_text s));
  f_of_int := Some;
  f_nan := None;
  f_repr := λ a, match a with Some x => str_of_Z x +:+ ".0" | None => "" end;
  f_parse := λ s, if bool_decide (s ∈ na_values) then Some None
                  else match whole_text s with
                       | Some z => Some (Some z)
                       | None => None
                       end
|}.

(** A generator that counts its draws. *)
#[export] Instance counter_rng : Rng nat IntFloat := {|
  uniform1 := λ lo hi g, (Some (Z.of_nat g), S g);
  normal1 := λ loc scale g,
    (match loc with Some m => Some (m + Z.of_nat g)%Z | None => None end, S g)
|}.

#[export] Instance plain_paths : OsPath := {|
  dirname := λ _, "/repo/scripts";
  abspath := λ p, p
|}.

Definition files_dir : string := "/repo/scripts/../files".

(** Nothing on disk, a fresh generator. *)
Definition w0 : World nat IntFloat := mkWorld 0 ∅ ∅ [] ∅.

(** The three inputs of the Comparator, written by hand. *)
Definition w_inputs (pred truth centers : list string) : World nat IntFloat :=
  mkWorld 0 {[files_dir]}
    (<[files_dir +:+ "/predicted_classes.csv" := pred]>
      (<[files_dir +:+ "/ground_truth.csv" := truth]>
        (<[files_dir +:+ "/clusters.csv" := centers]> ∅)))
    [] ∅.

(** Three predicted classes, two true classes, two centers. *)
Definition w_three_classes : World nat IntFloat :=
  w_inputs ["1;2;0"; "3;4;1"; "5;6;0"; "7;8;2"]
           ["feature_0;feature_1;cls"; "1;2;0"; "3;4;1"]
           ["2;3"; "4;5"].





Definition script : string := "/repo/scripts/plot_comparison.py".

(** A prediction whose last record has no label, and no ground truth on
    disk. *)
Definition w_unlabelled : World nat IntFloat :=
  w_inputs ["1;2;0"; "3;4;1"; "7;8"]
           ["feature_0;feature_1;cls"; "1;2;0"] ["2;3"].

Definition w_missing_truth : World nat IntFloat :=
  mkWorld 0 {[files_dir]}
    (<[files_dir +:+ "/predicted_classes.csv" := ["1;2;0"]]>
      (<[files_dir +:+ "/clusters.csv" := ["2;3"]]> ∅))
    [] ∅.

(** A disk that already holds other files and an older ground truth. *)
Definition w_used : World nat IntFloat :=
  mkWorld 0 {[files_dir; "/tmp"]}
    (<[files_dir +:+ "/ground_truth.csv" := ["old"]]>
      (<[files_dir +:+ "/notes.txt" := ["keep me"]]> ∅))
    [EvShow] (<["HOME" := "/home/user"]> ∅).

End Demo.

Example split_fields_ex :
  split_fields ";" "feature_0;feature_1;cls" = ["feature_0"; "feature_1"; "cls"].
Proof. reflexivity. Qed.

Example join_fields_ex :
  join_fields ";" ["0.5"; "0.25"; "2"] = "0.5;0.25;2".
Proof. reflexivity. Qed.

Example str_of_Z_ex : str_of_Z 2 = "2" ∧ str_of_Z (-12) = "-12" ∧ str_of_nat 10 = "10".
Proof. repeat split; reflexivity. Qed.

(** Blank lines: the empty line, a space, a tab; not a line of
    separators, nor a record that starts with a space. *)
Example is_blank_ex :
  is_blank ";" "" = true ∧ is_blank ";" "  " = true ∧
  is_blank ";" (String "009" " ") = true ∧
  is_blank ";" ";;" = false ∧ is_blank ";" " 1;2;0" = false.
Proof. repeat split; reflexivity. Qed.

(** ** Facts about the text helpers *)

Section Text_facts.

Lemma append_inj_l (p a b : string) : p +:+ a = p +:+ b → a = b.
Proof.
  induction p as [|c p IH]; simpl; [done|].
  intros [= E]. by apply IH.
Qed.

Lemma chars_cons c s : chars (String c s) = c :: chars s.
Proof. reflexivity. Qed.

Lemma sep_free_cons sep c s :
  sep_free sep (String c s) ↔ sep ≠ c ∧ sep_free sep s.
Proof. unfold sep_free. rewrite chars_cons, not_elem_of_cons. tauto. Qed.

Lemma split_fields_nonempty sep s : split_fields sep s ≠ [].
Proof.
  destruct s as [|c s]; simpl; [done|].
  destruct (Ascii.eqb c sep); [done|].
  by destruct (split_fields sep s).
Qed.

Lemma split_fields_sep_free sep s :
  sep_free sep s → split_fields sep s = [s].
Proof.
  induction s as [|c s IH]; [done|].
  rewrite sep_free_cons. intros [Hc Hs]. simpl.
  destruct (Ascii.eqb_spec c sep) as [->|_]; [done|].
  by rewrite IH.
Qed.

Lemma split_fields_app sep a rest :
  sep_free sep a →
  split_fields sep (a +:+ String sep rest) = a :: split_fields sep rest.
Proof.
  induction a as [|c a IH].
  - intros _. simpl. by rewrite Ascii.eqb_refl.
  - rewrite sep_free_cons. intros [Hc Ha]. simpl.
    destruct (Ascii.eqb_spec c sep) as [->|_]; [done|].
    by rewrite IH.
Qed.

(** Cutting a joined line gives the fields back, as long as no field
    holds the separator. *)
Lemma split_join sep fields :
  fields ≠ [] → Forall (sep_free sep) fields →
  split_fields sep (join_fields sep fields) = fields.
Proof.
  induction fields as [|f rest IH]; [done|].
  intros _ Hall. apply Forall_cons in Hall as [Hf Hrest].
  destruct rest as [|f' rest'].
  - simpl. by apply split_fields_sep_free.
  - change (join_fields sep (f :: f' :: rest'))
      with (f +:+ String sep (join_fields sep (f' :: rest'))).
    rewrite split_fields_app by done. f_equal. by apply IH.
Qed.

(** A line that holds the separator is not blank. *)
Lemma is_blank_sep sep a rest : is_blank sep (a +:+ String sep rest) = false.
Proof.
  induction a as [|c a IH]; simpl.
  - by rewrite Ascii.eqb_refl, andb_false_r.
  - by rewrite IH, andb_false_r.
Qed.

(** A line of two fields or more is never blank. *)
Lemma join_fields_not_blank sep f g rest :
  is_blank sep (join_fields sep (f :: g :: rest)) = false.
Proof.
  change (join_fields sep (f :: g :: rest))
    with (f +:+ String sep (join_fields sep (g :: rest))).
  apply is_blank_sep.
Qed.

Lemma uint_text_sep_free d : sep_free ";" (NilEmpty.string_of_uint d).
Proof.
  induction d; simpl; [by apply not_elem_of_nil| ..];
    (apply sep_free_cons; split; [discriminate | assumption]).
Qed.

Lemma str_of_Z_sep_free z : sep_free ";" (str_of_Z z).
Proof.
  unfold str_of_Z, NilZero.string_of_int, NilZero.string_of_uint.
  destruct (Z.to_int z) as [d|d]; destruct d;
    repeat (apply sep_free_cons; split; [discriminate|]);
    first [ by apply not_elem_of_nil | apply uint_text_sep_free ].
Qed.

End Text_facts.

(** ** Running the monad *)

Section Monad_facts.
Context {F G : Type}.
Implicit Types (w : World G F).

Lemma bind_ok {A B} (m : @M F G A) (k : A → M B) w a w' :
  m w = (inr a, w') → bind m k w = k a w'.
Proof. unfold bind. by intros ->. Qed.

Lemma bind_err {A B} (m : @M F G A) (k : A → M B) w e w' :
  m w = (inl e, w') → bind m k w = (inl e, w').
Proof. unfold bind. by intros ->. Qed.

Lemma bind_bind {A B C} (m : @M F G A) (k1 : A → M B) (k2 : B → M C) w :
  bind (bind m k1) k2 w = bind m (λ a, bind (k1 a) k2) w.
Proof. unfold bind. by destruct (m w) as [[e|a] w']. Qed.

Lemma bind_ret {A B} (a : A) (k : A → @M F G B) w :
  bind (ret a) k w = k a w.
Proof. reflexivity. Qed.

End Monad_facts.

(** One step of a run: reassociate, then use the equation [E] of the
    first call. *)
Ltac mstep E :=
  rewrite ?bind_bind; rewrite (bind_ok _ _ _ _ _ E); cbv beta.

(** ** The Generator *)

Section Run_facts.
Context {F G : Type} `{!Float64 F} `{!Rng G F} `{!OsPath}.
Implicit Types (w : World G F) (g : G) (d : gset string)
  (f : gmap string (list string)) (lg : list (Event F))
  (env : gmap string string).

Lemma draws_length (draw : G → F * G) n g :
  length (draws draw n g).1 = n.
Proof.
  revert g. induction n as [|n IH]; intros g; simpl; [done|].
  destruct (draw g) as [x g1]. specialize (IH g1).
  destruct (draws draw n g1) as [xs g2]. simpl in *. by rewrite IH.
Qed.

(** A draw of [n] values gives [n] values and touches the generator
    only. *)
Lemma with_rng_draws (draw : G → F * G) n g :
  ∃ (xs : list F) g', length xs = n ∧ draws draw n g = (xs, g') ∧
    ∀ d f lg env,
      with_rng (draws draw n) (mkWorld g d f lg env)
      = (inr xs, mkWorld g' d f lg env).
Proof.
  pose proof (draws_length draw n g) as Hlen.
  destruct (draws draw n g) as [xs g'] eqn:E. exists xs, g'.
  split; [done|]. split; [done|]. intros d f lg env.
  unfold with_rng. cbn [rng dirs files log environ]. by rewrite E.
Qed.

Lemma map_const_replicate {A B} (b : B) (l : list A) :
  map (λ _, b) l = replicate (length l) b.
Proof. induction l; simpl; congruence. Qed.

(** The first column assigned to [pd.DataFrame()]. *)
Lemma setitem_first name (s : Series F) : setitem [] name s = inr [(name, s)].
Proof. unfold setitem. cbn. by destruct (s_len s). Qed.

(** A column as long as the frame. *)
Lemma setitem_fits (df : DataFrame F) name (s : Series F) :
  s_len s = nrows df → setitem df name s = inr (put_column df name s).
Proof. intros E. unfold setitem. by rewrite E, Nat.eqb_refl. Qed.

(** Lines 21-28 for one class, call by call: the draws in the order the
    script makes them, and the frame they give.  Nothing but the
    generator is read or changed. *)
Lemma class_frame_steps cls g :
  ∃ (l0 l1 s0 s1 : F) g1 g2 (xs : list F) g3 (ys : list F) g4,
    draws (uniform1 (f_lit "0.0") (f_lit "1.0")) N_DIMS g = ([l0; l1], g1) ∧
    draws (uniform1 (f_lit "0.0") (f_lit "0.15")) N_DIMS g1 = ([s0; s1], g2) ∧
    draws (normal1 l0 s0) N_SAMPLES g2 = (xs, g3) ∧
    draws (normal1 l1 s1) N_SAMPLES g3 = (ys, g4) ∧
    length xs = N_SAMPLES ∧ length ys = N_SAMPLES ∧
    ∀ d f lg env,
      class_frame cls (mkWorld g d f lg env)
      = (inr [("feature_0", SFloat xs); ("feature_1", SFloat ys);
              ("cls", SInt (replicate N_SAMPLES (Z.of_nat cls)))],
         mkWorld g4 d f lg env).
Proof.
  destruct (with_rng_draws (uniform1 (f_lit "0.0") (f_lit "1.0")) N_DIMS g)
    as (locs & g1 & Hlocs & D1 & E1).
  destruct (with_rng_draws (uniform1 (f_lit "0.0") (f_lit "0.15")) N_DIMS g1)
    as (stds & g2 & Hstds & D2 & E2).
  destruct locs as [|l0 [|l1 [|? ?]]]; try discriminate Hlocs.
  destruct stds as [|s0 [|s1 [|? ?]]]; try discriminate Hstds.
  destruct (with_rng_draws (normal1 l0 s0) N_SAMPLES g2)
    as (xs & g3 & Hxs & D3 & E3).
  destruct (with_rng_draws (normal1 l1 s1) N_SAMPLES g3)
    as (ys & g4 & Hys & D4 & E4).
  exists l0, l1, s0, s1, g1, g2, xs, g3, ys, g4.
  do 6 (split; [done|]). intros d f lg env.
  unfold class_frame, np_random_uniform, np_random_normal.
  mstep (E1 d f lg env). mstep (E2 d f lg env).
  change (enumerate (combine [s0; s1] [l0; l1]))
    with [(0, (s0, l0)); (1, (s1, l1))].
  cbn [foldM].
  change ("feature_" +:+ str_of_nat 0) with "feature_0".
  change ("feature_" +:+ str_of_nat 1) with "feature_1".
  mstep (E3 d f lg env). rewrite setitem_first.
  change (bind (lift (inr ?a)) ?k ?w0) with (k a w0). cbv beta.
  mstep (E4 d f lg env).
  rewrite setitem_fits by (cbn [nrows s_len]; congruence).
  change (bind (lift (inr ?a)) ?k ?w0) with (k a w0). cbv beta.
  rewrite bind_ret.
  rewrite setitem_fits
    by (unfold range; cbn [nrows put_column s_len];
        by rewrite length_map, length_seq).
  change (bind (lift (inr ?a)) ?k ?w0) with (k a w0). cbv beta.
  unfold ret, range. cbn [put_column].
  change (String.eqb "feature_0" "feature_1") with false.
  change (String.eqb "feature_0" "cls") with false.
  change (String.eqb "feature_1" "cls") with false.
  cbv iota. by rewrite map_const_replicate, length_seq.
Qed.

(** Lines 21-28 for one class: two feature columns of [N_SAMPLES] draws
    and the label column. *)
Lemma class_frame_run cls g :
  ∃ (xs ys : list F) g', length xs = N_SAMPLES ∧ length ys = N_SAMPLES ∧
    ∀ d f lg env,
      class_frame cls (mkWorld g d f lg env)
      = (inr [("feature_0", SFloat xs); ("feature_1", SFloat ys);
              ("cls", SInt (replicate N_SAMPLES (Z.of_nat cls)))],
         mkWorld g' d f lg env).
Proof.
  destruct (class_frame_steps cls g)
    as (l0 & l1 & s0 & s1 & g1 & g2 & xs & g3 & ys & g4
        & _ & _ & _ & _ & Hxs & Hys & E).
  by exists xs, ys, g4.
Qed.

Lemma grouped_labels_3 n :
  grouped_labels 3 n
  = (replicate n 0%Z ++ replicate n 1%Z) ++ replicate n 2%Z.
Proof.
  unfold grouped_labels, range. cbn [seq flat_map Z.of_nat].
  by rewrite app_nil_r, app_assoc.
Qed.

(** Lines 19-30: the dataset has [N_CLASSES * N_SAMPLES] rows, the
    classes one after the other; it is fixed by the generator state the
    loop starts from, and building it only draws from the generator. *)
Lemma make_dataset_run g :
  ∃ (xs ys : list F) g',
    length xs = N_CLASSES * N_SAMPLES ∧ length ys = N_CLASSES * N_SAMPLES ∧
    ∀ d f lg env,
      make_dataset (mkWorld g d f lg env)
      = (inr (dataset xs ys), mkWorld g' d f lg env).
Proof.
  destruct (class_frame_run 0 g) as (x0 & y0 & g0 & Hx0 & Hy0 & E0).
  destruct (class_frame_run 1 g0) as (x1 & y1 & g1 & Hx1 & Hy1 & E1).
  destruct (class_frame_run 2 g1) as (x2 & y2 & g2 & Hx2 & Hy2 & E2).
  exists ((x0 ++ x1) ++ x2), ((y0 ++ y1) ++ y2), g2.
  rewrite !length_app, Hx0, Hx1, Hx2, Hy0, Hy1, Hy2.
  split; [unfold N_CLASSES; lia|]. split; [unfold N_CLASSES; lia|].
  intros d f lg env. unfold make_dataset.
  change (range N_CLASSES) with [0; 1; 2]. cbn [foldM].
  rewrite !bind_bind, (bind_ok _ _ _ _ _ (E0 d f lg env)), bind_ret.
  rewrite !bind_bind, (bind_ok _ _ _ _ _ (E1 d f lg env)), bind_ret.
  rewrite !bind_bind, (bind_ok _ _ _ _ _ (E2 d f lg env)), !bind_ret.
  cbn [app]. unfold lift, pd_concat, dataset.
  cbn [flat_map columns map fst app].
  replace (unique_from [] ["feature_0"; "feature_1"; "cls"; "feature_0";
                           "feature_1"; "cls"; "feature_0"; "feature_1"; "cls"])
    with ["feature_0"; "feature_1"; "cls"] by (vm_compute; reflexivity).
  change N_CLASSES with 3. rewrite grouped_labels_3. reflexivity.
Qed.

(** The whole run of the Generator from the generator state [g], in
    every world and for every argument list: it ends normally, and the
    draws depend on neither the disk, the arguments nor the environment
    variables. *)
Lemma gen_ex_data_from file g :
  ∃ (xs ys : list F) g',
    length xs = N_CLASSES * N_SAMPLES ∧ length ys = N_CLASSES * N_SAMPLES ∧
    (∀ d f lg env, make_dataset (mkWorld g d f lg env)
                   = (inr (dataset xs ys), mkWorld g' d f lg env)) ∧
    ∀ argv w, rng w = g →
      gen_ex_data file argv w
      = (inr (dataset xs ys),
         mkWorld g'
           (if path_exists w (out_path file) then dirs w
            else {[out_path file]} ∪ dirs w)
           (<[out_path file +:+ "/ground_truth.csv"
                := csv_lines ";" (dataset xs ys)]>
             (<[out_path file +:+ "/sample_data.csv"
                  := csv_lines ";" (features xs ys)]> (files w)))
           (log w
              ++ (if path_exists w (out_path file) then []
                  else [EvMkdir (out_path file)])
              ++ (if bool_decide ("--plot" ∈ argv)
                  then [EvPairplot (dataset xs ys) "cls"; EvShow] else [])
              ++ [EvToCsv (out_path file +:+ "/sample_data.csv");
                  EvToCsv (out_path file +:+ "/ground_truth.csv")])
           (environ w)).
Proof.
  destruct (make_dataset_run g) as (xs & ys & g' & Hxs & Hys & E).
  exists xs, ys, g'. split; [done|]. split; [done|]. split; [exact E|].
  intros argv w Hg.
  destruct w as [g0 d f lg env]. cbn [rng] in Hg. subst g0.
  set (w := mkWorld g d f lg env).
  set (lg1 := lg ++ (if path_exists w (out_path file) then []
                     else [EvMkdir (out_path file)])).
  set (d1 := if path_exists w (out_path file) then d
             else {[out_path file]} ∪ d).
  unfold gen_ex_data.
  change (bind (os_path_exists (out_path file)) ?k w)
    with (k (path_exists w (out_path file)) w). cbv beta.
  assert (Hpre : (if negb (path_exists w (out_path file))
                  then os_mkdir (out_path file) else ret tt) w
                 = (inr tt, mkWorld g d1 f lg1 env)).
  { subst d1 lg1.
    destruct (path_exists w (out_path file)) eqn:Hex; simpl.
    - unfold ret. by rewrite app_nil_r.
    - unfold os_mkdir. by rewrite Hex. }
  mstep Hpre. mstep (E d1 f lg1 env).
  assert (Hplot : (if bool_decide ("--plot" ∈ argv)
                   then bind (sns_pairplot (dataset xs ys) "cls") (λ _, plt_show)
                   else ret tt) (mkWorld g' d1 f lg1 env)
                  = (inr tt, mkWorld g' d1 f
                       (lg1 ++ (if bool_decide ("--plot" ∈ argv)
                                then [EvPairplot (dataset xs ys) "cls"; EvShow]
                                else [])) env)).
  { destruct (bool_decide ("--plot" ∈ argv)).
    - unfold bind, sns_pairplot, plt_show, emit. simpl.
      by rewrite <- app_assoc.
    - unfold ret. by rewrite app_nil_r. }
  mstep Hplot.
  unfold write_files, to_csv.
  change (map (λ i, "feature_" +:+ str_of_nat i) (range N_DIMS))
    with ["feature_0"; "feature_1"].
  change (select_columns (dataset xs ys) ["feature_0"; "feature_1"])
    with (inr (features xs ys) : Exn + DataFrame F).
  unfold bind, lift, ret. cbn [rng dirs files log environ].
  subst lg1 d1. subst w. cbn [dirs log].
  by rewrite <- !app_assoc.
Qed.

(** The same for one world. *)
Lemma gen_ex_data_run file w :
  ∃ (xs ys : list F) g',
    length xs = N_CLASSES * N_SAMPLES ∧ length ys = N_CLASSES * N_SAMPLES ∧
    ∀ argv,
      gen_ex_data file argv w
      = (inr (dataset xs ys),
         mkWorld g'
           (if path_exists w (out_path file) then dirs w
            else {[out_path file]} ∪ dirs w)
           (<[out_path file +:+ "/ground_truth.csv"
                := csv_lines ";" (dataset xs ys)]>
             (<[out_path file +:+ "/sample_data.csv"
                  := csv_lines ";" (features xs ys)]> (files w)))
           (log w
              ++ (if path_exists w (out_path file) then []
                  else [EvMkdir (out_path file)])
              ++ (if bool_decide ("--plot" ∈ argv)
                  then [EvPairplot (dataset xs ys) "cls"; EvShow] else [])
              ++ [EvToCsv (out_path file +:+ "/sample_data.csv");
                  EvToCsv (out_path file +:+ "/ground_truth.csv")])
           (environ w)).
Proof.
  destruct (gen_ex_data_from file (rng w))
    as (xs & ys & g' & Hxs & Hys & _ & Hrun).
  exists xs, ys, g'. split; [done|]. split; [done|]. intros argv.
  by apply Hrun.
Qed.

(** *** The lines of the two files *)

Lemma grouped_labels_from a k n i :
  0 < n → i < k * n →
  flat_map (λ c, replicate n (Z.of_nat c)) (seq a k) !! i
  = Some (Z.of_nat (a + i / n)).
Proof.
  intros Hn. revert a i. induction k as [|k IH]; intros a i Hi; [lia|].
  cbn [seq flat_map].
  destruct (decide (i < n)) as [Hlt|Hge].
  - rewrite lookup_app_l by (by rewrite length_replicate).
    rewrite lookup_replicate_2 by done.
    by rewrite Nat.div_small, Nat.add_0_r.
  - rewrite lookup_app_r by (rewrite length_replicate; lia).
    rewrite length_replicate, IH by lia.
    replace i with ((i - n) + 1 * n) at 2 by lia.
    rewrite Nat.div_add by lia. do 2 f_equal. lia.
Qed.

(** Row [i] of the dataset belongs to class [i / N_SAMPLES]. *)
Lemma grouped_labels_lookup i :
  i < N_CLASSES * N_SAMPLES →
  grouped_labels N_CLASSES N_SAMPLES !! i = Some (Z.of_nat (i / N_SAMPLES)).
Proof.
  intros Hi. unfold grouped_labels, range.
  rewrite grouped_labels_from; [done| unfold N_SAMPLES; lia | done].
Qed.

Lemma grouped_labels_length k n : length (grouped_labels k n) = k * n.
Proof.
  unfold grouped_labels, range. generalize 0.
  induction k as [|k IH]; intros a; cbn [seq flat_map]; [done|].
  rewrite length_app, length_replicate, IH. lia.
Qed.

Lemma csv_lines_dataset (xs ys : list F) :
  csv_lines ";" (dataset xs ys)
  = "feature_0;feature_1;cls"
      :: map (λ i, join_fields ";"
                [nth i (map f_repr xs) "";
                 nth i (map f_repr ys) "";
                 nth i (map str_of_Z (grouped_labels N_CLASSES N_SAMPLES)) ""])
             (range (length xs)).
Proof. reflexivity. Qed.

Lemma csv_lines_features (xs ys : list F) :
  csv_lines ";" (features xs ys)
  = "feature_0;feature_1"
      :: map (λ i, join_fields ";"
                [nth i (map f_repr xs) ""; nth i (map f_repr ys) ""])
             (range (length xs)).
Proof. reflexivity. Qed.

Lemma nth_map_lookup {A} (t : A → string) (l : list A) i a :
  l !! i = Some a → nth i (map t l) "" = t a.
Proof.
  intros Hl. rewrite nth_lookup.
  change (map t l) with (t <$> l). by rewrite list_lookup_fmap, Hl.
Qed.

Lemma range_lookup n i : i < n → range n !! i = Some i.
Proof. intros Hi. unfold range. by rewrite lookup_seq_lt. Qed.

Lemma dataset_row (xs ys : list F) i x y c :
  xs !! i = Some x → ys !! i = Some y →
  grouped_labels N_CLASSES N_SAMPLES !! i = Some c →
  tail (csv_lines ";" (dataset xs ys)) !! i
  = Some (join_fields ";" [f_repr x; f_repr y; str_of_Z c]).
Proof.
  intros Hx Hy Hc. rewrite csv_lines_dataset. cbn [tail].
  change (map ?h (range (length xs))) with (h <$> range (length xs)).
  rewrite list_lookup_fmap, range_lookup by (by eapply lookup_lt_Some).
  cbn [fmap option_fmap option_map].
  by rewrite (nth_map_lookup _ _ _ _ Hx), (nth_map_lookup _ _ _ _ Hy),
    (nth_map_lookup _ _ _ _ Hc).
Qed.

Lemma features_row (xs ys : list F) i x y :
  xs !! i = Some x → ys !! i = Some y →
  tail (csv_lines ";" (features xs ys)) !! i
  = Some (join_fields ";" [f_repr x; f_repr y]).
Proof.
  intros Hx Hy. rewrite csv_lines_features. cbn [tail].
  change (map ?h (range (length xs))) with (h <$> range (length xs)).
  rewrite list_lookup_fmap, range_lookup by (by eapply lookup_lt_Some).
  cbn [fmap option_fmap option_map].
  by rewrite (nth_map_lookup _ _ _ _ Hx), (nth_map_lookup _ _ _ _ Hy).
Qed.

Lemma csv_rows_length sep (df : DataFrame F) :
  length (tail (csv_lines sep df)) = nrows df.
Proof. unfold csv_lines, range. cbn [tail]. by rewrite length_map, length_seq. Qed.

(** The two output files have different names. *)
Lemma output_paths_differ file :
  out_path file +:+ "/ground_truth.csv" ≠ out_path file +:+ "/sample_data.csv".
Proof. intros E. by apply append_inj_l in E. Qed.

(** What is on disk after a run, file by file. *)
Lemma gen_ex_data_files file w :
  ∃ (xs ys : list F),
    length xs = N_CLASSES * N_SAMPLES ∧ length ys = N_CLASSES * N_SAMPLES ∧
    ∀ argv, ∃ w',
      gen_ex_data file argv w = (inr (dataset xs ys), w') ∧
      files w' !! (out_path file +:+ "/sample_data.csv")
        = Some (csv_lines ";" (features xs ys)) ∧
      files w' !! (out_path file +:+ "/ground_truth.csv")
        = Some (csv_lines ";" (dataset xs ys)).
Proof.
  destruct (gen_ex_data_run file w) as (xs & ys & g' & Hxs & Hys & Hrun).
  exists xs, ys. split; [done|]. split; [done|]. intros argv.
  eexists. split; [apply Hrun|]. cbn [files]. split.
  - rewrite lookup_insert_ne by apply output_paths_differ.
    by rewrite lookup_insert_eq.
  - by rewrite lookup_insert_eq.
Qed.

(** *** The claims about the Generator *)

(** C2. Every run of the Generator ends normally and leaves
    [sample_data.csv] and [ground_truth.csv] with a header line followed
    by the same number of data rows, [N_CLASSES * N_SAMPLES], which is
    300. *)
Theorem generator_row_counts file argv w :
  ∃ (df : DataFrame F) w' rows_s rows_g,
    gen_ex_data file argv w = (inr df, w') ∧
    files w' !! (out_path file +:+ "/sample_data.csv")
      = Some ("feature_0;feature_1" :: rows_s) ∧
    files w' !! (out_path file +:+ "/ground_truth.csv")
      = Some ("feature_0;feature_1;cls" :: rows_g) ∧
    length rows_s = length rows_g ∧
    length rows_g = N_CLASSES * N_SAMPLES ∧
    N_CLASSES * N_SAMPLES = 300.
Proof.
  destruct (gen_ex_data_files file w) as (xs & ys & Hxs & Hys & Hrun).
  destruct (Hrun argv) as (w' & E & Hs & Hg).
  eexists _, w', _, _. split; [exact E|].
  rewrite csv_lines_features in Hs. rewrite csv_lines_dataset in Hg.
  split; [exact Hs|]. split; [exact Hg|].
  unfold range. rewrite !length_map, length_seq. done.
Qed.

(** C3. In every run of the Generator the label written in data row [i]
    of [ground_truth.csv] is the integer [i / N_SAMPLES], which lies in
    [[0, N_CLASSES)]: the first [N_SAMPLES] rows are class 0, the next
    class 1, and so on, in the order of generation. *)
Theorem ground_truth_labels_grouped file argv w :
  ∃ (df : DataFrame F) w' head rows,
    gen_ex_data file argv w = (inr df, w') ∧
    files w' !! (out_path file +:+ "/ground_truth.csv") = Some (head :: rows) ∧
    length rows = N_CLASSES * N_SAMPLES ∧
    df_get df "cls" = Some (SInt (grouped_labels N_CLASSES N_SAMPLES)) ∧
    ∀ i, i < N_CLASSES * N_SAMPLES →
      i / N_SAMPLES < N_CLASSES ∧
      grouped_labels N_CLASSES N_SAMPLES !! i = Some (Z.of_nat (i / N_SAMPLES)) ∧
      ∃ a b, rows !! i
             = Some (join_fields ";" [a; b; str_of_Z (Z.of_nat (i / N_SAMPLES))]).
Proof.
  destruct (gen_ex_data_files file w) as (xs & ys & Hxs & Hys & Hrun).
  destruct (Hrun argv) as (w' & E & _ & Hg).
  exists (dataset xs ys), w', "feature_0;feature_1;cls",
    (tail (csv_lines ";" (dataset xs ys))).
  split; [exact E|]. split; [exact Hg|].
  split; [by rewrite csv_rows_length|]. split; [reflexivity|].
  intros i Hi. split; [apply Nat.Div0.div_lt_upper_bound; lia|].
  split; [by apply grouped_labels_lookup|].
  destruct (lookup_lt_is_Some_2 xs i) as [x Hx]; [lia|].
  destruct (lookup_lt_is_Some_2 ys i) as [y Hy]; [lia|].
  exists (f_repr x), (f_repr y).
  apply dataset_row; [done..|]. by apply grouped_labels_lookup.
Qed.

(** C4. In every run of the Generator [sample_data.csv] starts with the
    header [feature_0;feature_1], which names no [cls] column, and
    [ground_truth.csv] starts with the same names followed by [cls]
    once; row by row the two files carry the same two feature cells in
    the same order, and [ground_truth.csv] one more cell after them. *)
Theorem generator_file_layout file argv w :
  ∃ (xs ys : list F) w' rows_s rows_g,
    gen_ex_data file argv w = (inr (dataset xs ys), w') ∧
    files w' !! (out_path file +:+ "/sample_data.csv")
      = Some (join_fields ";" ["feature_0"; "feature_1"] :: rows_s) ∧
    files w' !! (out_path file +:+ "/ground_truth.csv")
      = Some (join_fields ";" (["feature_0"; "feature_1"] ++ ["cls"]) :: rows_g) ∧
    join_fields ";" ["feature_0"; "feature_1"] = "feature_0;feature_1" ∧
    ("cls" ∉ ["feature_0"; "feature_1"]) ∧
    length xs = length rows_s ∧ length ys = length rows_s ∧
    length rows_g = length rows_s ∧
    ∀ i x y, xs !! i = Some x → ys !! i = Some y →
      ∃ c, rows_s !! i = Some (join_fields ";" [f_repr x; f_repr y]) ∧
           rows_g !! i = Some (join_fields ";" ([f_repr x; f_repr y] ++ [c])).
Proof.
  destruct (gen_ex_data_files file w) as (xs & ys & Hxs & Hys & Hrun).
  destruct (Hrun argv) as (w' & E & Hs & Hg).
  exists xs, ys, w', (tail (csv_lines ";" (features xs ys))),
    (tail (csv_lines ";" (dataset xs ys))).
  split; [exact E|]. split; [exact Hs|]. split; [exact Hg|].
  split; [reflexivity|].
  split; [by repeat (apply not_elem_of_cons; split; [done|]);
             apply not_elem_of_nil|].
  rewrite !csv_rows_length. cbn [nrows features dataset s_len].
  split; [done|]. split; [lia|]. split; [done|].
  intros i x y Hx Hy.
  assert (Hi : i < N_CLASSES * N_SAMPLES)
    by (rewrite <- Hxs; by eapply lookup_lt_Some).
  exists (str_of_Z (Z.of_nat (i / N_SAMPLES))). split.
  - by apply features_row.
  - apply dataset_row; [done..|]. by apply grouped_labels_lookup.
Qed.

Lemma mkdir_events_no_write file w :
  Forall (λ e : Event F, is_write e = false ∧ is_plot e = false)
    (if path_exists w (out_path file) then []
     else [EvMkdir (out_path file)]).
Proof. destruct (path_exists w (out_path file)); repeat constructor. Qed.

(** C7. For one and the same world (the same generator state, hence the
    same dataset) the run with any argument list and the run with any
    other leave the same dataset, the same files with the same contents
    and the same directories: the [--plot] flag changes nothing that is
    written.  The events before the two [to_csv] calls hold no write,
    and with [--plot] the pair plot and [plt.show()] are among them:
    plotting comes before the files are written. *)
Theorem plot_flag_leaves_files file argv argv' w :
  ∃ (df : DataFrame F) w1 w2 before,
    gen_ex_data file argv w = (inr df, w1) ∧
    gen_ex_data file argv' w = (inr df, w2) ∧
    files w1 = files w2 ∧ dirs w1 = dirs w2 ∧ rng w1 = rng w2 ∧
    log w1 = log w ++ before
               ++ [EvToCsv (out_path file +:+ "/sample_data.csv");
                   EvToCsv (out_path file +:+ "/ground_truth.csv")] ∧
    Forall (λ e, is_write e = false) before ∧
    ("--plot" ∈ argv →
       ∃ pre, before = pre ++ [EvPairplot df "cls"; EvShow]).
Proof.
  destruct (gen_ex_data_run file w) as (xs & ys & g' & Hxs & Hys & Hrun).
  eexists (dataset xs ys), _, _,
    ((if path_exists w (out_path file) then []
      else [EvMkdir (out_path file)])
     ++ (if bool_decide ("--plot" ∈ argv)
         then [EvPairplot (dataset xs ys) "cls"; EvShow] else [])).
  split; [apply (Hrun argv)|]. split; [apply (Hrun argv')|].
  cbn [files dirs rng log]. do 3 (split; [reflexivity|]).
  split; [by rewrite <- !app_assoc|]. split.
  - apply Forall_app. split.
    + eapply Forall_impl; [apply mkdir_events_no_write|]. by intros e [? _].
    + case_bool_decide; repeat constructor.
  - intros Hin. rewrite bool_decide_eq_true_2 by done. by eexists.
Qed.

Lemma filter_plot_mkdir file w :
  filter (λ e : Event F, is_plot e = true)
    (if path_exists w (out_path file) then []
     else [EvMkdir (out_path file)]) = [].
Proof. by destruct (path_exists w (out_path file)). Qed.

(** C8. Two runs whose argument lists agree on whether the string
    [--plot] occurs in them make the same calls, return the same dataset
    and leave the same world, whatever else the lists hold, in whatever
    order, and whatever the environment variables of the two processes
    are; the environment variables themselves are left as they were.
    The plotting calls of a run are [sns.pairplot(df, hue="cls")]
    followed by [plt.show()] when [--plot] occurs among the arguments,
    and none at all when it does not. *)
Theorem plot_flag_only file argv argv' w env' :
  ("--plot" ∈ argv ↔ "--plot" ∈ argv') →
  ∃ (df : DataFrame F) w1 new,
    gen_ex_data file argv w = (inr df, w1) ∧
    gen_ex_data file argv' w = (inr df, w1) ∧
    gen_ex_data file argv' (set_environ w env') = (inr df, set_environ w1 env') ∧
    environ w1 = environ w ∧
    log w1 = log w ++ new ∧
    filter (λ e, is_plot e = true) new
    = (if bool_decide ("--plot" ∈ argv)
       then [EvPairplot df "cls"; EvShow] else []).
Proof.
  intros Hsame.
  destruct (gen_ex_data_from file (rng w))
    as (xs & ys & g' & _ & _ & _ & Hrun).
  eexists (dataset xs ys), _, _.
  split; [by apply Hrun|].
  split; [rewrite (Hrun argv' w eq_refl);
          by rewrite (bool_decide_ext _ _ Hsame)|].
  split; [rewrite (Hrun argv' (set_environ w env') eq_refl);
          by rewrite (bool_decide_ext _ _ Hsame)|].
  cbn [environ log]. split; [reflexivity|]. split; [reflexivity|].
  rewrite !filter_app, filter_plot_mkdir. cbn [app].
  case_bool_decide; reflexivity.
Qed.

End Run_facts.

(** ** Reading back what the Generator wrote *)

Section Round_trip.
Context {F G : Type} `{!Float64 F} `{!Rng G F} `{!OsPath}.
Implicit Types (w : World G F).

Lemma map_exn_map {A B C} (f : B → Exn + C) (h : A → B) (k : A → C) l :
  (∀ x, x ∈ l → f (h x) = inr (k x)) →
  map_exn f (map h l) = inr (map k l).
Proof.
  induction l as [|x l IH]; intros Hall; [done|].
  cbn [map map_exn]. rewrite Hall by apply list_elem_of_here.
  rewrite IH; [done|]. intros y Hy. apply Hall. by apply list_elem_of_further.
Qed.

Lemma filter_map_all {A B} (P : B → Prop) `{!∀ b, Decision (P b)}
    (h : A → B) (l : list A) :
  (∀ x, P (h x)) → filter P (map h l) = map h l.
Proof.
  intros Hall. induction l as [|x l IH]; [done|].
  cbn [map]. rewrite filter_cons_True by apply Hall. by rewrite IH.
Qed.

Lemma sep_free_nth sep (l : list string) i :
  Forall (sep_free sep) l → sep_free sep (nth i l "").
Proof.
  intros Hall. rewrite nth_lookup. destruct (l !! i) as [t|] eqn:Ht; simpl.
  - rewrite Forall_forall in Hall. apply Hall. by eapply list_elem_of_lookup_2.
  - apply not_elem_of_nil.
Qed.

Lemma elem_of_range i n : i ∈ range n → i < n.
Proof. unfold range. rewrite elem_of_seq. lia. Qed.

(** Reading the texts of a list back, cell by cell. *)
Lemma Forall2_reread {A} (P : A → F → Prop) (t : A → string) (l : list A) n :
  length l = n →
  (∀ x, x ∈ l → ∃ y, f_parse (t x) = Some y ∧ P x y) →
  Forall2 P l (map (λ i, reread (nth i (map t l) "")) (range n)).
Proof.
  intros Hn Hall. apply Forall2_same_length_lookup_2.
  - unfold range. by rewrite length_map, length_seq.
  - intros i x y Hx Hy.
    change (map ?h (range n)) with (h <$> range n) in Hy.
    rewrite list_lookup_fmap, range_lookup in Hy
      by (rewrite <- Hn; by eapply lookup_lt_Some).
    injection Hy as <-. rewrite (nth_map_lookup _ _ _ _ Hx).
    destruct (Hall x) as (y & Hy & HP); [by eapply list_elem_of_lookup_2|].
    unfold reread. by rewrite Hy.
Qed.

(** Records no wider than the names: the table is as wide as the
    names. *)
Lemma table_width_fits sep (names recs : list string) :
  Forall (λ l, (length (split_fields sep l) ≤ length names)%nat) recs →
  table_width sep names recs = length names.
Proof.
  destruct recs as [|l recs]; [done|]. intros Hall.
  apply Forall_cons in Hall as [Hl _]. cbn [table_width]. lia.
Qed.

Section With_laws.
Context (close : F → F → Prop) `{!FloatText F close}.

Lemma repr_texts_sep_free (xs : list F) :
  Forall (sep_free ";") (map f_repr xs).
Proof. apply Forall_map, Forall_forall. intros x _. apply repr_sep_free. Qed.

Lemma label_texts_sep_free (cs : list Z) :
  Forall (sep_free ";") (map str_of_Z cs).
Proof. apply Forall_map, Forall_forall. intros x _. apply str_of_Z_sep_free. Qed.

(** Lines 9-10 of the Comparator applied to the lines the Generator
    writes for a dataset. *)
Lemma parse_ground_truth (xs ys : list F) :
  length xs = N_CLASSES * N_SAMPLES → length ys = N_CLASSES * N_SAMPLES →
  ∃ xs' ys' cs',
    parse_csv ";" names3 1 (csv_lines ";" (dataset xs ys))
    = inr [("feature_1", SFloat xs'); ("feature_2", SFloat ys');
           ("cls", SFloat cs')] ∧
    Forall2 close xs xs' ∧ Forall2 close ys ys' ∧
    Forall2 (λ c c', c' = f_of_int c) (grouped_labels N_CLASSES N_SAMPLES) cs'.
Proof.
  intros Hxs Hys.
  set (n := length xs).
  set (ta := λ i, nth i (map f_repr xs) "").
  set (tb := λ i, nth i (map f_repr ys) "").
  set (tc := λ i, nth i (map str_of_Z (grouped_labels N_CLASSES N_SAMPLES)) "").
  exists (map (λ i, reread (ta i)) (range n)),
    (map (λ i, reread (tb i)) (range n)),
    (map (λ i, reread (tc i)) (range n)).
  split.
  - change (csv_lines ";" (dataset xs ys))
      with ("feature_0;feature_1;cls"
              :: map (λ i, join_fields ";" [ta i; tb i; tc i]) (range n)).
    assert (Hsplit : ∀ i, split_fields ";" (join_fields ";" [ta i; tb i; tc i])
                          = [ta i; tb i; tc i]).
    { intros i. rewrite split_join; [done|done|].
      repeat constructor; subst ta tb tc; cbv beta; apply sep_free_nth;
        auto using repr_texts_sep_free, label_texts_sep_free. }
    unfold parse_csv, data_lines. cbv zeta.
    change (drop 1 (?l0 :: ?rest)) with rest.
    rewrite filter_map_all by (intros i; apply join_fields_not_blank).
    rewrite table_width_fits
      by (apply Forall_map, Forall_forall; intros i _; cbv beta;
          by rewrite Hsplit).
    change (length names3) with 3.
    rewrite (map_exn_map _ _ (λ i, [Some (ta i); Some (tb i); Some (tc i)])).
    2:{ intros i _. unfold tokenize. by rewrite Hsplit. }
    change (seq 0 3) with [0; 1; 2].
    cbn [map_exn]. unfold convert_column.
    rewrite (map_exn_map _ _ (λ i, reread (ta i))).
    2:{ intros i Hi%elem_of_range. cbn [nth convert_cell]. unfold reread.
        subst ta. cbv beta.
        destruct (lookup_lt_is_Some_2 xs i) as [x Hx]; [done|].
        rewrite (nth_map_lookup _ _ _ _ Hx).
        destruct (parse_repr x) as (y & -> & _). done. }
    rewrite (map_exn_map _ _ (λ i, reread (tb i))).
    2:{ intros i Hi%elem_of_range. cbn [nth convert_cell]. unfold reread.
        subst tb. cbv beta.
        destruct (lookup_lt_is_Some_2 ys i) as [y Hy]; [subst n; lia|].
        rewrite (nth_map_lookup _ _ _ _ Hy).
        destruct (parse_repr y) as (y' & -> & _). done. }
    rewrite (map_exn_map _ _ (λ i, reread (tc i))).
    2:{ intros i Hi%elem_of_range. cbn [nth convert_cell]. unfold reread.
        subst tc. cbv beta.
        rewrite (nth_map_lookup _ _ _ _ (grouped_labels_lookup i ltac:(subst n; lia))).
        rewrite parse_int; [done|].
        assert (i / N_SAMPLES < N_CLASSES)
          by (apply Nat.Div0.div_lt_upper_bound; subst n; lia).
        unfold N_CLASSES in *. lia. }
    reflexivity.
  - split; [|split].
    + apply Forall2_reread; [done|]. intros x _. apply parse_repr.
    + apply Forall2_reread; [subst n; lia|]. intros y _. apply parse_repr.
    + apply Forall2_reread; [subst n; by rewrite grouped_labels_length|].
      intros c Hc. exists (f_of_int c). split; [|done].
      apply list_elem_of_lookup in Hc as [i Hi].
      assert (Hlt : i < N_CLASSES * N_SAMPLES).
      { rewrite <- (grouped_labels_length N_CLASSES N_SAMPLES).
        by eapply lookup_lt_Some. }
      rewrite grouped_labels_lookup in Hi by done.
      assert (c = Z.of_nat (i / N_SAMPLES)) as -> by congruence.
      apply parse_int.
      assert (i / N_SAMPLES < N_CLASSES)
        by (apply Nat.Div0.div_lt_upper_bound; lia).
      unfold N_CLASSES in *. lia.
Qed.

(** C1. Whatever the Generator writes to [ground_truth.csv], the
    Comparator's read of that file (separator [;], names [feature_1],
    [feature_2], [cls], first line skipped, every column as float)
    succeeds and gives as many rows as were written; row by row the
    two feature values are [close] to the written ones and the label
    is the written integer as a float.  [close] is the precision of
    the float text, as [FloatText] states it. *)
Theorem ground_truth_round_trip file argv w :
  ∃ (xs ys : list F) w' (xs' ys' cs' : list F) w'',
    gen_ex_data file argv w = (inr (dataset xs ys), w') ∧
    read_csv (out_path file +:+ "/ground_truth.csv") ";" names3 1 w'
    = (inr [("feature_1", SFloat xs'); ("feature_2", SFloat ys');
            ("cls", SFloat cs')], w'') ∧
    length xs' = nrows (dataset xs ys) ∧
    nrows (dataset xs ys) = N_CLASSES * N_SAMPLES ∧
    Forall2 close xs xs' ∧ Forall2 close ys ys' ∧
    Forall2 (λ c c', c' = f_of_int c) (grouped_labels N_CLASSES N_SAMPLES) cs'.
Proof.
  destruct (gen_ex_data_files file w) as (xs & ys & Hxs & Hys & Hrun).
  destruct (Hrun argv) as (w' & E & _ & Hg).
  destruct (parse_ground_truth xs ys Hxs Hys)
    as (xs' & ys' & cs' & Hparse & Hx & Hy & Hc).
  exists xs, ys, w', xs', ys', cs'. eexists.
  split; [exact E|]. split.
  - unfold read_csv, bind, emit. cbn [files]. rewrite Hg, Hparse. reflexivity.
  - cbn [nrows dataset s_len].
    split; [symmetry; by eapply Forall2_length|]. done.
Qed.

End With_laws.
End Round_trip.

(** ** The Comparator *)

Section Comparator_facts.
Context {F G : Type} `{!Float64 F} `{!Rng G F} `{!OsPath}.
Implicit Types (w : World G F) (df : DataFrame F).

Lemma logged_logged w evs evs' :
  logged (logged w evs) evs' = logged w (evs ++ evs').
Proof. unfold logged. cbn [rng dirs files log environ]. by rewrite app_assoc. Qed.

Lemma read_csv_run path names k w :
  read_csv path ";" names k w
  = (read_result w path names k, logged w [EvReadCsv path ";" names k]).
Proof.
  unfold read_csv, bind, emit, read_result, logged. cbn [files].
  by destruct (files w !! path).
Qed.

Lemma map_exn_inr {A B} (f : A → Exn + B) l ys :
  map_exn f l = inr ys → Forall2 (λ x y, f x = inr y) l ys.
Proof.
  revert ys. induction l as [|x l IH]; intros ys; cbn [map_exn].
  - intros [= <-]. constructor.
  - destruct (f x) as [e|y] eqn:Hx; [done|].
    destruct (map_exn f l) as [e|ys'] eqn:Hl; [done|].
    intros [= <-]. constructor; [done|]. by apply IH.
Qed.


Lemma map_exn_inl {A B} (f : A → Exn + B) l e :
  map_exn f l = inl e → ∃ x, x ∈ l ∧ f x = inl e.
Proof.
  induction l as [|x l IH]; cbn [map_exn]; [done|].
  destruct (f x) as [e'|y] eqn:Hx.
  - intros [= <-]. exists x. split; [apply list_elem_of_here|done].
  - destruct (map_exn f l) as [e'|ys]; [|done]. intros [= <-].
    destruct IH as (z & Hz & Hfz); [done|].
    exists z. split; [by apply list_elem_of_further|done].
Qed.

Lemma map_exn_inl_only {A B} (f : A → Exn + B) (err : Exn) l x e :
  (∀ y e', f y = inl e' → e' = err) →
  x ∈ l → f x = inl e → map_exn f l = inl err.
Proof.
  intros Honly. induction l as [|y l IH]; intros Hin Hx;
    [by apply elem_of_nil in Hin|].
  cbn [map_exn]. destruct (f y) as [e'|b] eqn:Hy.
  - by rewrite (Honly _ _ Hy).
  - apply elem_of_cons in Hin as [->|Hin]; [congruence|].
    by rewrite IH.
Qed.

Lemma Forall2_right {A B} (P : A → B → Prop) (Q : B → Prop) l k :
  Forall2 P l k → (∀ x y, P x y → Q y) → Forall Q k.
Proof. induction 1; intros HQ; constructor; eauto. Qed.


(** *** The reader *)

Lemma table_width_ge sep (names recs : list string) :
  (length names ≤ table_width sep names recs)%nat.
Proof. destruct recs; cbn [table_width]; lia. Qed.


Lemma tokenize_fits sep width line :
  (length (split_fields sep line) ≤ width)%nat →
  tokenize sep width line
  = inr (map Some (split_fields sep line)
           ++ replicate (width - length (split_fields sep line)) None).
Proof. intros Hle. unfold tokenize. apply Nat.ltb_ge in Hle. by rewrite Hle. Qed.


Lemma convert_cell_only c e : convert_cell (F:=F) c = inl e → e = ValueError.
Proof.
  destruct c as [t|]; cbn; [|done]. by destruct (f_parse t); intros [= <-].
Qed.

Lemma convert_column_only rows j e :
  convert_column (F:=F) rows j = inl e → e = ValueError.
Proof.
  unfold convert_column.
  destruct (map_exn _ rows) as [e'|xs] eqn:Hm; [|done]. intros [= <-].
  apply map_exn_inl in Hm as (r & _ & Hr). by eapply convert_cell_only.
Qed.

Lemma convert_column_inr rows j (s : Series F) :
  convert_column rows j = inr s →
  ∃ xs, s = SFloat xs ∧ length xs = length rows.
Proof.
  unfold convert_column.
  destruct (map_exn _ rows) as [e|xs] eqn:Hxs; [done|].
  intros [= <-]. exists xs. split; [done|].
  apply map_exn_inr, Forall2_length in Hxs. done.
Qed.

Lemma combine_names_shape (Q : Series F → Prop) (names : list string)
    (cols : list (Series F)) :
  length cols = length names → Forall Q cols →
  Forall2 (λ n col, col.1 = n ∧ Q col.2) names (combine names cols).
Proof.
  revert cols. induction names as [|n names IH]; intros cols Hl Hall.
  - constructor.
  - destruct cols as [|s cols]; [done|]. cbn [combine].
    apply Forall_cons in Hall as [Hs Hall]. constructor; [done|].
    apply IH; [by injection Hl|done].
Qed.

(** A frame that loads has the assigned names as its columns, every
    column of dtype float, and one row per record. *)
Lemma parse_csv_shape sep names k lines df :
  parse_csv sep names k lines = inr df →
  Forall2 (λ n col, col.1 = n ∧
             ∃ xs, col.2 = SFloat xs
                   ∧ length xs = length (data_lines sep k lines))
          names df.
Proof.
  unfold parse_csv. cbv zeta.
  set (recs := data_lines sep k lines).
  pose proof (table_width_ge sep names recs) as Hge.
  set (W := table_width sep names recs) in *.
  destruct (map_exn (tokenize sep W) recs) as [e|rows] eqn:Htok; [done|].
  destruct (map_exn (convert_column rows) (seq 0 W)) as [e|cols] eqn:Hcols;
    [done|].
  intros [= <-].
  apply map_exn_inr in Htok. apply Forall2_length in Htok.
  apply map_exn_inr in Hcols.
  assert (Hlen : length cols = W).
  { apply Forall2_length in Hcols. by rewrite length_seq in Hcols. }
  apply (combine_names_shape
           (λ s, ∃ xs, s = SFloat xs ∧ length xs = length recs)).
  - rewrite length_drop, Hlen. lia.
  - apply Forall_drop. eapply Forall2_right; [exact Hcols|].
    intros j s Hs. cbv beta in Hs.
    apply convert_column_inr in Hs as (xs & -> & Hxs).
    exists xs. split; [done|congruence].
Qed.

Lemma parse_csv_names3 k lines df :
  parse_csv ";" names3 k lines = inr df →
  ∃ a b c, df = [("feature_1", SFloat a); ("feature_2", SFloat b);
                 ("cls", SFloat c)] ∧
           length a = length (data_lines ";" k lines) ∧
           length b = length (data_lines ";" k lines) ∧
           length c = length (data_lines ";" k lines).
Proof.
  intros Hs%parse_csv_shape. unfold names3 in Hs.
  inversion Hs as [|? [n1 s1] ? df1 (E1 & a & Ea & La) Hs1]; subst.
  inversion Hs1 as [|? [n2 s2] ? df2 (E2 & b & Eb & Lb) Hs2]; subst.
  inversion Hs2 as [|? [n3 s3] ? df3 (E3 & c & Ec & Lc) Hs3]; subst.
  inversion Hs3; subst. cbn [fst snd] in *. subst. by exists a, b, c.
Qed.

Lemma parse_csv_names2 k lines df :
  parse_csv ";" names2 k lines = inr df →
  ∃ a b, df = [("feature_1", SFloat a); ("feature_2", SFloat b)] ∧
         length a = length (data_lines ";" k lines) ∧
         length b = length (data_lines ";" k lines).
Proof.
  intros Hs%parse_csv_shape. unfold names2 in Hs.
  inversion Hs as [|? [n1 s1] ? df1 (E1 & a & Ea & La) Hs1]; subst.
  inversion Hs1 as [|? [n2 s2] ? df2 (E2 & b & Eb & Lb) Hs2]; subst.
  inversion Hs2; subst. cbn [fst snd] in *. subst. by exists a, b.
Qed.

(** The records all fit the table: tokenizing goes through. *)
Lemma tokenize_all sep width (recs : list string) :
  Forall (λ l, (length (split_fields sep l) ≤ width)%nat) recs →
  map_exn (tokenize sep width) recs
  = inr (map (λ l, map Some (split_fields sep l)
                     ++ replicate (width - length (split_fields sep l)) None)
             recs).
Proof.
  intros Hfit. rewrite <- (list_fmap_id recs) at 1.
  change (id <$> recs) with (map id recs).
  apply map_exn_map. intros l Hl. unfold id.
  rewrite Forall_forall in Hfit. by apply tokenize_fits, Hfit.
Qed.

(** A field that the float conversion rejects, in a file whose records
    all fit the table, makes the read a [ValueError]. *)
Lemma parse_csv_rejected_field names k lines line field :
  Forall (λ l, (length (split_fields ";" l)
                ≤ table_width ";" names (data_lines ";" k lines))%nat)
         (data_lines ";" k lines) →
  line ∈ data_lines ";" k lines →
  field ∈ split_fields ";" line →
  f_parse field = None →
  parse_csv (F:=F) ";" names k lines = inl ValueError.
Proof.
  intros Hfit Hline Hfield Hbad. unfold parse_csv. cbv zeta.
  set (recs := data_lines ";" k lines) in *.
  set (W := table_width ";" names recs) in *.
  set (tok := λ l, map Some (split_fields ";" l)
                     ++ replicate (W - length (split_fields ";" l)) None).
  rewrite (tokenize_all ";" W recs Hfit). fold tok.
  apply list_elem_of_lookup in Hfield as [j Hj].
  assert (HjW : j < W).
  { rewrite Forall_forall in Hfit. specialize (Hfit line Hline).
    apply lookup_lt_Some in Hj. lia. }
  assert (Hcol : convert_column (F:=F) (map tok recs) j = inl ValueError).
  { unfold convert_column.
    rewrite (map_exn_inl_only _ ValueError _ (tok line) ValueError); [done| | |].
    - intros r e. apply convert_cell_only.
    - apply list_elem_of_fmap. by exists line.
    - unfold tok. rewrite nth_lookup, lookup_app_l.
      + change (map Some ?l) with (Some <$> l).
        rewrite list_lookup_fmap, Hj. cbn. by rewrite Hbad.
      + rewrite length_map. by eapply lookup_lt_Some. }
  rewrite (map_exn_inl_only _ ValueError _ j ValueError); [done| | |done].
  - intros j' e. apply convert_column_only.
  - apply elem_of_seq. lia.
Qed.

(** The same for records no wider than the names. *)
Lemma parse_csv_non_numeric names k lines line field :
  Forall (λ l, (length (split_fields ";" l) ≤ length names)%nat)
         (data_lines ";" k lines) →
  line ∈ data_lines ";" k lines →
  field ∈ split_fields ";" line →
  f_parse field = None →
  parse_csv (F:=F) ";" names k lines = inl ValueError.
Proof.
  intros Hwide. apply parse_csv_rejected_field.
  by rewrite table_width_fits.
Qed.




(** *** The calls of a run *)

Lemma logged_nil w : logged w [] = w.
Proof. destruct w. unfold logged. cbn. by rewrite app_nil_r. Qed.

Lemma emit_run (e : Event F) w : emit e w = (inr tt, logged w [e]).
Proof. reflexivity. Qed.

(** A loop whose body only logs one call per element. *)
Lemma for_each_logged {A} (body : A → M unit) (ev : A → Event F) vs w :
  (∀ v w0, body v w0 = (inr tt, logged w0 [ev v])) →
  for_each vs body w = (inr tt, logged w (map ev vs)).
Proof.
  intros Hbody. unfold for_each. revert w.
  induction vs as [|v vs IH]; intros w; cbn [foldM map].
  - unfold ret. by rewrite logged_nil.
  - rewrite (bind_ok _ _ _ _ _ (Hbody v w)), IH, logged_logged. reflexivity.
Qed.

Lemma mask_list_length {A B} (m : list bool) (a : list A) (b : list B) :
  length a = length b → length (mask_list m a) = length (mask_list m b).
Proof.
  revert a b. induction m as [|x m IH]; intros [|u a] [|v b] Hl;
    cbn [mask_list]; try done.
  injection Hl as Hl. destruct x; cbn [length]; auto.
Qed.

(** Lines 16-18 (and 20-22): one scatter call per distinct label, in
    order of first appearance. *)
Lemma scatter_classes_run i (a b c : list F) w :
  length a = length b →
  scatter_classes i [("feature_1", SFloat a); ("feature_2", SFloat b);
                     ("cls", SFloat c)] w
  = (inr tt, logged w (map (class_series i a b c) (unique_from [] c))).
Proof.
  intros Hab. unfold scatter_classes, getitem.
  cbn [df_get]. change (String.eqb "feature_1" "cls") with false.
  change (String.eqb "feature_2" "cls") with false.
  change (String.eqb "cls" "cls") with true. cbv iota.
  change (bind (lift (inr ?s)) ?k w) with (k s w). cbv beta.
  unfold unique. cbn [to_floats].
  apply for_each_logged. intros v w0.
  change (bind (lift (inr ?s)) ?k w0) with (k s w0). cbv beta.
  unfold series_eq. cbn [to_floats df_mask map mask_series df_get].
  change (String.eqb "feature_1" "feature_1") with true.
  change (String.eqb "feature_1" "feature_2") with false.
  change (String.eqb "feature_2" "feature_2") with true. cbv iota.
  change (bind (lift (inr ?s)) ?k w0) with (k s w0). cbv beta.
  change (bind (lift (inr ?s)) ?k w0) with (k s w0). cbv beta.
  unfold ax_scatter. cbn [s_len].
  rewrite (mask_list_length _ a b Hab), Nat.eqb_refl. reflexivity.
Qed.

(** Lines 14-28 on three frames as [read_csv] gives them. *)
Lemma draw_run (pa pb pc ga gb gc ca cb : list F) w :
  length pa = length pb → length ga = length gb → length ca = length cb →
  draw [("feature_1", SFloat pa); ("feature_2", SFloat pb); ("cls", SFloat pc)]
       [("feature_1", SFloat ga); ("feature_2", SFloat gb); ("cls", SFloat gc)]
       [("feature_1", SFloat ca); ("feature_2", SFloat cb)] w
  = (inr tt, logged w (figure_events pa pb pc ga gb gc ca cb)).
Proof.
  intros Hp Hg Hc. unfold draw, plt_subplots, ax_set_title, plt_show.
  rewrite (bind_ok _ _ _ _ _ (emit_run _ _)).
  rewrite (bind_ok _ _ _ _ _ (scatter_classes_run 0 pa pb pc _ Hp)).
  rewrite (bind_ok _ _ _ _ _ (scatter_classes_run 1 ga gb gc _ Hg)).
  unfold getitem. cbn [df_get].
  change (String.eqb "feature_1" "feature_1") with true.
  change (String.eqb "feature_1" "feature_2") with false.
  change (String.eqb "feature_2" "feature_2") with true. cbv iota.
  unfold bind, lift, ax_scatter. cbn [s_len]. rewrite Hc, Nat.eqb_refl.
  unfold emit, logged, figure_events. cbn [rng dirs files log environ].
  f_equal. f_equal. rewrite <- !app_assoc. reflexivity.
Qed.

Lemma read_result_logged w evs path names k :
  read_result (logged w evs) path names k = read_result w path names k.
Proof. reflexivity. Qed.

(** Lines 7-13: the three reads in order; the first that fails ends the
    run. *)
Lemma load_inputs_run file w :
  load_inputs file w
  = match read_result w (out_path file +:+ "/predicted_classes.csv") names3 0 with
    | inl e => (inl e, logged w (take 1 (read_events file)))
    | inr p =>
      match read_result w (out_path file +:+ "/ground_truth.csv") names3 1 with
      | inl e => (inl e, logged w (take 2 (read_events file)))
      | inr g =>
        match read_result w (out_path file +:+ "/clusters.csv") names2 0 with
        | inl e => (inl e, logged w (read_events file))
        | inr c => (inr (p, g, c), logged w (read_events file))
        end
      end
    end.
Proof.
  unfold load_inputs.
  unfold bind at 1. rewrite read_csv_run.
  destruct (read_result w _ names3 0) as [e|p]; [reflexivity|].
  unfold bind at 1. rewrite read_csv_run, read_result_logged.
  destruct (read_result w _ names3 1) as [e|g];
    [by rewrite logged_logged|].
  unfold bind at 1. rewrite read_csv_run, !read_result_logged.
  destruct (read_result w _ names2 0) as [e|c];
    by rewrite !logged_logged.
Qed.

Lemma plot_comparison_unfold file w :
  plot_comparison file w
  = match load_inputs file w with
    | (inl e, w1) => (inl e, w1)
    | (inr (p, g, c), w1) => bind (draw p g c) (λ _, ret (p, g, c)) w1
    end.
Proof.
  unfold plot_comparison. unfold bind at 1.
  by destruct (load_inputs file w) as [[e|[[p g] c]] w1].
Qed.

Lemma read_result_names3 w path k df :
  read_result w path names3 k = inr df →
  ∃ lines a b c,
    files w !! path = Some lines ∧ df = labelled_frame a b c ∧
    length a = length (data_lines ";" k lines) ∧
    length b = length (data_lines ";" k lines) ∧
    length c = length (data_lines ";" k lines).
Proof.
  unfold read_result. destruct (files w !! path) as [lines|]; [|done].
  intros (a & b & c & -> & Ha & Hb & Hc)%parse_csv_names3.
  by exists lines, a, b, c.
Qed.

Lemma read_result_names2 w path k df :
  read_result w path names2 k = inr df →
  ∃ lines a b,
    files w !! path = Some lines ∧ df = centers_frame a b ∧
    length a = length (data_lines ";" k lines) ∧
    length b = length (data_lines ";" k lines).
Proof.
  unfold read_result. destruct (files w !! path) as [lines|]; [|done].
  intros (a & b & -> & Ha & Hb)%parse_csv_names2.
  by exists lines, a, b.
Qed.

(** The four ways a run of the Comparator can go: one of the three
    reads fails and nothing but the reads up to it was done, or the
    three files load and the figure is drawn. *)
Lemma plot_comparison_outcome file w :
  (∃ e,
     read_result w (out_path file +:+ "/predicted_classes.csv") names3 0 = inl e ∧
     plot_comparison file w = (inl e, logged w (take 1 (read_events file))))
  ∨ (∃ p e,
       read_result w (out_path file +:+ "/predicted_classes.csv") names3 0 = inr p ∧
       read_result w (out_path file +:+ "/ground_truth.csv") names3 1 = inl e ∧
       plot_comparison file w = (inl e, logged w (take 2 (read_events file))))
  ∨ (∃ p g e,
       read_result w (out_path file +:+ "/predicted_classes.csv") names3 0 = inr p ∧
       read_result w (out_path file +:+ "/ground_truth.csv") names3 1 = inr g ∧
       read_result w (out_path file +:+ "/clusters.csv") names2 0 = inl e ∧
       plot_comparison file w = (inl e, logged w (take 3 (read_events file))))
  ∨ (∃ pa pb pc ga gb gc ca cb : list F,
       read_result w (out_path file +:+ "/predicted_classes.csv") names3 0
         = inr (labelled_frame pa pb pc) ∧
       read_result w (out_path file +:+ "/ground_truth.csv") names3 1
         = inr (labelled_frame ga gb gc) ∧
       read_result w (out_path file +:+ "/clusters.csv") names2 0
         = inr (centers_frame ca cb) ∧
       plot_comparison file w
       = (inr (labelled_frame pa pb pc, labelled_frame ga gb gc,
               centers_frame ca cb),
          logged w (read_events file
                      ++ figure_events pa pb pc ga gb gc ca cb))).
Proof.
  rewrite plot_comparison_unfold, load_inputs_run.
  destruct (read_result w _ names3 0) as [e|p] eqn:Ep;
    [left; by exists e|].
  destruct (read_result w _ names3 1) as [e|g] eqn:Eg;
    [right; left; by exists p, e|].
  destruct (read_result w _ names2 0) as [e|c] eqn:Ec;
    [right; right; left; by exists p, g, e|].
  right; right; right.
  destruct (read_result_names3 _ _ _ _ Ep)
    as (lp & pa & pb & pc & _ & -> & Hpa & Hpb & _).
  destruct (read_result_names3 _ _ _ _ Eg)
    as (lg & ga & gb & gc & _ & -> & Hga & Hgb & _).
  destruct (read_result_names2 _ _ _ _ Ec)
    as (lc & ca & cb & _ & -> & Hca & Hcb).
  exists pa, pb, pc, ga, gb, gc, ca, cb.
  do 3 (split; [reflexivity|]).
  unfold labelled_frame, centers_frame.
  rewrite (bind_ok _ _ _ _ _ (draw_run pa pb pc ga gb gc ca cb _
             ltac:(congruence) ltac:(congruence) ltac:(congruence))).
  unfold ret. by rewrite logged_logged.
Qed.

(** The two ways a run of the Comparator can go: the three files load
    and the figure is drawn, or a read fails and nothing but reads was
    done. *)
Lemma plot_comparison_cases file w :
  (∃ pa pb pc ga gb gc ca cb : list F,
     let p := [("feature_1", SFloat pa); ("feature_2", SFloat pb);
               ("cls", SFloat pc)] in
     let g := [("feature_1", SFloat ga); ("feature_2", SFloat gb);
               ("cls", SFloat gc)] in
     let c := [("feature_1", SFloat ca); ("feature_2", SFloat cb)] in
     read_result w (out_path file +:+ "/predicted_classes.csv") names3 0 = inr p ∧
     read_result w (out_path file +:+ "/ground_truth.csv") names3 1 = inr g ∧
     read_result w (out_path file +:+ "/clusters.csv") names2 0 = inr c ∧
     plot_comparison file w
     = (inr (p, g, c),
        logged w (read_events file
                    ++ figure_events pa pb pc ga gb gc ca cb)))
  ∨ (∃ e n,
       plot_comparison file w = (inl e, logged w (take n (read_events file))) ∧
       (read_result w (out_path file +:+ "/predicted_classes.csv") names3 0 = inl e
        ∨ read_result w (out_path file +:+ "/ground_truth.csv") names3 1 = inl e
        ∨ read_result w (out_path file +:+ "/clusters.csv") names2 0 = inl e)).
Proof.
  destruct (plot_comparison_outcome file w)
    as [(e & He & Hrun)|[(p & e & _ & He & Hrun)|[(p & g & e & _ & _ & He & Hrun)
       |(pa & pb & pc & ga & gb & gc & ca & cb & Hp & Hg & Hc & Hrun)]]].
  - right. exists e, 1. auto.
  - right. exists e, 2. auto.
  - right. exists e, 3. auto.
  - left. by exists pa, pb, pc, ga, gb, gc, ca, cb.
Qed.

(** *** The log of a run *)

Lemma read_calls_app (l1 l2 : list (Event F)) :
  read_calls (l1 ++ l2) = read_calls l1 ++ read_calls l2.
Proof. apply omap_app. Qed.

Lemma read_calls_class_series i (a b c vs : list F) :
  read_calls (map (class_series i a b c) vs) = [].
Proof. by induction vs. Qed.

Lemma read_calls_figure pa pb pc ga gb gc ca cb :
  read_calls (figure_events pa pb pc ga gb gc ca cb) = [].
Proof.
  unfold figure_events.
  by rewrite !read_calls_app, !read_calls_class_series.
Qed.

Lemma read_calls_read_events file n :
  read_calls (take n (read_events file : list (Event F)))
  = take n (comparator_inputs file).
Proof. by destruct n as [|[|[|[|n]]]]. Qed.


Lemma nrows_names3 (a b c : list F) :
  nrows [("feature_1", SFloat a); ("feature_2", SFloat b); ("cls", SFloat c)]
  = length a.
Proof. reflexivity. Qed.

(** C5. Every run of the Comparator starts with the [read_csv] call for
    [predicted_classes.csv]; the call for [ground_truth.csv] follows
    exactly when that file loaded, and the call for [clusters.csv]
    exactly when both loaded.  No other file is read.  The three files
    are those of the directory [../files] next to the script; all are
    read with separator [;], the first two under the names [feature_1],
    [feature_2], [cls] and the third under [feature_1], [feature_2],
    and only [ground_truth.csv] has a line skipped, its first.  The run
    ends normally exactly when the three calls return frames, and these
    are the frames it holds; a run that fails has done nothing but the
    reads.  The frames carry the assigned names; for a file without the
    quote character every line that is not blank is a row, the first
    line included for [predicted_classes.csv] and [clusters.csv], the
    first line left out for [ground_truth.csv]. *)
Theorem comparator_reads file w :
  comparator_inputs file
  = [(abspath (dirname file +:+ "/../files") +:+ "/predicted_classes.csv",
      ";"%char, ["feature_1"; "feature_2"; "cls"], 0);
     (abspath (dirname file +:+ "/../files") +:+ "/ground_truth.csv",
      ";"%char, ["feature_1"; "feature_2"; "cls"], 1);
     (abspath (dirname file +:+ "/../files") +:+ "/clusters.csv",
      ";"%char, ["feature_1"; "feature_2"], 0)] ∧
  ∃ n evs,
    (plot_comparison file w).2 = logged w evs ∧
    (1 ≤ n ≤ 3)%nat ∧
    take n evs = take n (read_events file) ∧
    read_calls evs = take n (comparator_inputs file) ∧
    ((2 ≤ n)%nat ↔
       ∃ p, read_result w (out_path file +:+ "/predicted_classes.csv")
              ["feature_1"; "feature_2"; "cls"] 0 = inr p) ∧
    ((3 ≤ n)%nat ↔
       (∃ p, read_result w (out_path file +:+ "/predicted_classes.csv")
               ["feature_1"; "feature_2"; "cls"] 0 = inr p) ∧
       (∃ g, read_result w (out_path file +:+ "/ground_truth.csv")
               ["feature_1"; "feature_2"; "cls"] 1 = inr g)) ∧
    (∀ e, (plot_comparison file w).1 = inl e →
       evs = take n (read_events file)) ∧
    (∀ p g c,
       (plot_comparison file w).1 = inr (p, g, c) ↔
       read_result w (out_path file +:+ "/predicted_classes.csv")
         ["feature_1"; "feature_2"; "cls"] 0 = inr p ∧
       read_result w (out_path file +:+ "/ground_truth.csv")
         ["feature_1"; "feature_2"; "cls"] 1 = inr g ∧
       read_result w (out_path file +:+ "/clusters.csv")
         ["feature_1"; "feature_2"] 0 = inr c) ∧
    (∀ p g c,
       (plot_comparison file w).1 = inr (p, g, c) →
       columns p = ["feature_1"; "feature_2"; "cls"] ∧
       columns g = ["feature_1"; "feature_2"; "cls"] ∧
       columns c = ["feature_1"; "feature_2"] ∧
       ∃ lp lg lc,
         files w !! (out_path file +:+ "/predicted_classes.csv") = Some lp ∧
         files w !! (out_path file +:+ "/ground_truth.csv") = Some lg ∧
         files w !! (out_path file +:+ "/clusters.csv") = Some lc ∧
         (Forall quote_free lp →
            nrows p = length (filter (λ l, is_blank ";" l = false) lp)) ∧
         (Forall quote_free lg →
            nrows g = length (filter (λ l, is_blank ";" l = false) (drop 1 lg))) ∧
         (Forall quote_free lc →
            nrows c = length (filter (λ l, is_blank ";" l = false) lc))).
Proof.
  split; [reflexivity|]. fold names3 names2.
  destruct (plot_comparison_outcome file w)
    as [(e & He & Hrun)|[(p0 & e & Hp & He & Hrun)
       |[(p0 & g0 & e & Hp & Hg & He & Hrun)
       |(pa & pb & pc & ga & gb & gc & ca & cb & Hp & Hg & Hc & Hrun)]]];
    rewrite Hrun; cbn [fst snd].
  - exists 1, (take 1 (read_events file)).
    split; [reflexivity|]. split; [lia|]. split; [reflexivity|].
    split; [apply read_calls_read_events|].
    split; [split; [lia|intros [p Hp]; congruence]|].
    split; [split; [lia|intros [[p Hp] _]; congruence]|].
    split; [done|]. split; [|done].
    intros p g c. split; [done|]. intros (Hp & _). congruence.
  - exists 2, (take 2 (read_events file)).
    split; [reflexivity|]. split; [lia|]. split; [reflexivity|].
    split; [apply read_calls_read_events|].
    split; [split; [by eauto|lia]|].
    split; [split; [lia|intros [_ [g Hg]]; congruence]|].
    split; [done|]. split; [|done].
    intros p g c. split; [done|]. intros (_ & Hg & _). congruence.
  - exists 3, (take 3 (read_events file)).
    split; [reflexivity|]. split; [lia|]. split; [reflexivity|].
    split; [apply read_calls_read_events|].
    split; [split; [by eauto|lia]|].
    split; [split; [by eauto|lia]|].
    split; [done|]. split; [|done].
    intros p g c. split; [done|]. intros (_ & _ & Hc). congruence.
  - exists 3, (read_events file ++ figure_events pa pb pc ga gb gc ca cb).
    split; [reflexivity|]. split; [lia|]. split; [reflexivity|].
    split.
    { rewrite read_calls_app, read_calls_figure, app_nil_r.
      apply (read_calls_read_events file 3). }
    split; [split; [by eauto|lia]|].
    split; [split; [by eauto|lia]|].
    split; [done|]. split.
    + intros p g c. rewrite Hp, Hg, Hc. split.
      * by intros [= <- <- <-].
      * by intros ([= <-] & [= <-] & [= <-]).
    + intros p g c [= <- <- <-]. do 3 (split; [reflexivity|]).
      destruct (read_result_names3 _ _ _ _ Hp)
        as (lp & a & b & c & Hlp & [= <- <- <-] & Ha & _).
      destruct (read_result_names3 _ _ _ _ Hg)
        as (lg & a' & b' & c' & Hlg & [= <- <- <-] & Ha' & _).
      destruct (read_result_names2 _ _ _ _ Hc)
        as (lc & a'' & b'' & Hlc & [= <- <-] & Ha'' & _).
      exists lp, lg, lc. do 3 (split; [assumption|]).
      cbn [nrows labelled_frame centers_frame s_len].
      split; [intros _; exact Ha|]. split; [intros _; exact Ha'|].
      intros _; exact Ha''.
Qed.





(** *** Distinct values and series *)

Lemma unique_from_elem {A} `{!EqDecision A} (seen l : list A) x :
  x ∈ unique_from seen l ↔ x ∈ l ∧ x ∉ seen.
Proof.
  revert seen. induction l as [|y l IH]; intros seen; cbn [unique_from].
  - split; [by intros ?%elem_of_nil | by intros [?%elem_of_nil _]].
  - destruct (decide (y ∈ seen)) as [Hy|Hy].
    + rewrite IH, elem_of_cons. split; [tauto|].
      intros [[->|Hx] Hs]; [done|tauto].
    + rewrite !elem_of_cons, IH, not_elem_of_cons.
      destruct (decide (x = y)) as [->|Hne]; tauto.
Qed.

Lemma unique_from_NoDup {A} `{!EqDecision A} (seen l : list A) :
  NoDup (unique_from seen l).
Proof.
  revert seen. induction l as [|y l IH]; intros seen; cbn [unique_from].
  - constructor.
  - destruct (decide (y ∈ seen)); [apply IH|].
    constructor; [|apply IH].
    rewrite unique_from_elem, not_elem_of_cons. tauto.
Qed.

(** [unique] returns the distinct values of the column, each once. *)
Lemma unique_from_perm {A} `{!EqDecision A} (vals l : list A) :
  NoDup vals → (∀ v, v ∈ vals ↔ v ∈ l) →
  unique_from [] l ≡ₚ vals.
Proof.
  intros Hnd Hsame. apply NoDup_Permutation;
    [apply unique_from_NoDup | done |].
  intros v. rewrite unique_from_elem, Hsame.
  split; [tauto|]. intros Hv. split; [done|]. apply not_elem_of_nil.
Qed.

Lemma unique_from_count {A} `{!EqDecision A} (vals l : list A) :
  NoDup vals → (∀ v, v ∈ vals ↔ v ∈ l) →
  length (unique_from [] l) = length vals.
Proof. intros Hnd Hsame. by apply Permutation_length, unique_from_perm. Qed.

Lemma series_on_app i (l1 l2 : list (Event F)) :
  series_on i (l1 ++ l2) = series_on i l1 ++ series_on i l2.
Proof. apply omap_app. Qed.

Lemma series_on_class_same i (a b c vs : list F) :
  series_on i (map (class_series i a b c) vs)
  = map (λ v, (SFloat (mask_list (map (λ x, f_eqb x v) c) a),
               SFloat (mask_list (map (λ x, f_eqb x v) c) b),
               None, None, None)) vs.
Proof.
  induction vs as [|v vs IH]; [done|].
  unfold series_on in *. cbn [map omap list_omap class_series].
  rewrite Nat.eqb_refl. f_equal. exact IH.
Qed.

Lemma series_on_class_other i j (a b c vs : list F) :
  i ≠ j → series_on i (map (class_series j a b c) vs) = [].
Proof.
  intros Hne. induction vs as [|v vs IH]; [done|].
  unfold series_on in *. cbn [map omap list_omap class_series].
  apply Nat.eqb_neq in Hne. rewrite Nat.eqb_sym, Hne. exact IH.
Qed.

Lemma filter_auto_class_series (a b c vs : list F) :
  filter (λ sr, auto_coloured sr = true)
    (map (λ v, (SFloat (mask_list (map (λ x, f_eqb x v) c) a),
                SFloat (mask_list (map (λ x, f_eqb x v) c) b),
                None, None, None)) vs
       : list (Series F * Series F * option string * option Z * option string))
  = map (λ v, (SFloat (mask_list (map (λ x, f_eqb x v) c) a),
               SFloat (mask_list (map (λ x, f_eqb x v) c) b),
               None, None, None)) vs.
Proof. by apply filter_map_all. Qed.

Lemma filter_x_class_series (a b c vs : list F) :
  filter (λ sr, x_marked sr = true)
    (map (λ v, (SFloat (mask_list (map (λ x, f_eqb x v) c) a),
                SFloat (mask_list (map (λ x, f_eqb x v) c) b),
                None, None, None)) vs
       : list (Series F * Series F * option string * option Z * option string))
  = [].
Proof. induction vs as [|v vs IH]; [done|]. cbn [map]. by rewrite filter_cons_False. Qed.

(** The rows a mask keeps are the rows whose label is [==] to the
    class. *)
Lemma mask_points v (a b c : list F) :
  length a = length b →
  mask_list (map (λ x, f_eqb x v) c) a = map fst (class_points v a b c) ∧
  mask_list (map (λ x, f_eqb x v) c) b = map snd (class_points v a b c).
Proof.
  unfold class_points. revert a b.
  induction c as [|z c IH]; intros [|x a] [|y b] Hl; try done.
  injection Hl as Hl. destruct (IH a b Hl) as [IHa IHb].
  cbn [map mask_list combine].
  destruct (f_eqb z v) eqn:E.
  - rewrite filter_cons_True by done. cbn [map fst snd].
    by rewrite IHa, IHb.
  - rewrite filter_cons_False by (cbn; by rewrite E). done.
Qed.

Lemma class_series_points v (a b c : list F) :
  length a = length b →
  (SFloat (mask_list (map (λ x, f_eqb x v) c) a),
   SFloat (mask_list (map (λ x, f_eqb x v) c) b),
   None, None, None)
  = (plain_series (class_points v a b c)
     : Series F * Series F * option string * option Z * option string).
Proof.
  intros Hl. destruct (mask_points v a b c Hl) as [-> ->]. reflexivity.
Qed.

Lemma series_top_figure (pa pb pc ga gb gc ca cb : list F) :
  series_on 0 (figure_events pa pb pc ga gb gc ca cb)
  = map (λ v, (SFloat (mask_list (map (λ x, f_eqb x v) pc) pa),
               SFloat (mask_list (map (λ x, f_eqb x v) pc) pb),
               None, None, None)) (unique_from [] pc)
      ++ [(SFloat ca, SFloat cb, Some "red", Some 50%Z, Some "x")].
Proof.
  unfold figure_events. rewrite !series_on_app.
  by rewrite series_on_class_same, series_on_class_other.
Qed.

Lemma series_bottom_figure (pa pb pc ga gb gc ca cb : list F) :
  series_on 1 (figure_events pa pb pc ga gb gc ca cb)
  = map (λ v, (SFloat (mask_list (map (λ x, f_eqb x v) gc) ga),
               SFloat (mask_list (map (λ x, f_eqb x v) gc) gb),
               None, None, None)) (unique_from [] gc).
Proof.
  unfold figure_events. rewrite !series_on_app.
  rewrite series_on_class_same, series_on_class_other by done.
  cbn. by rewrite app_nil_r.
Qed.

Lemma filter_x_plain_series {A} (pts : A → list (F * F)) (vs : list A) :
  filter (λ sr, x_marked sr = true) (map (λ v, plain_series (pts v)) vs) = [].
Proof.
  induction vs as [|v vs IH]; [done|].
  cbn [map]. by rewrite filter_cons_False by (by cbn).
Qed.

(** C6. For any three frames as [read_csv] returns them (float columns
    of one length under the assigned names), lines 14-28 make the same
    calls [evs] in every world, and when the three reads of a run return
    these frames the run ends normally with the three reads followed by
    [evs].  The top axes get one scatter series, with no keyword, for
    each of the [k] distinct [cls] values of [predicted_classes.csv],
    each holding exactly the points of the rows whose label is [==] to
    that value, in the order of the rows, followed by exactly one series
    with marker [x], the cluster centers in red; the bottom axes get one
    such series for each distinct [cls] value of [ground_truth.csv] and
    nothing else. *)
Theorem scatter_series_per_class file w
    (pa pb pc ga gb gc ca cb vals_p vals_g : list F) :
  length pa = length pb → length pb = length pc →
  length ga = length gb → length gb = length gc →
  length ca = length cb →
  NoDup vals_p → (∀ v, v ∈ vals_p ↔ v ∈ pc) →
  NoDup vals_g → (∀ v, v ∈ vals_g ↔ v ∈ gc) →
  ∃ evs order_p order_g,
    (∀ w1 : World G F,
       draw (labelled_frame pa pb pc) (labelled_frame ga gb gc)
            (centers_frame ca cb) w1
       = (inr tt, logged w1 evs)) ∧
    (read_result w (out_path file +:+ "/predicted_classes.csv") names3 0
       = inr (labelled_frame pa pb pc) →
     read_result w (out_path file +:+ "/ground_truth.csv") names3 1
       = inr (labelled_frame ga gb gc) →
     read_result w (out_path file +:+ "/clusters.csv") names2 0
       = inr (centers_frame ca cb) →
     plot_comparison file w
     = (inr (labelled_frame pa pb pc, labelled_frame ga gb gc,
             centers_frame ca cb),
        logged w (read_events file ++ evs))) ∧
    order_p ≡ₚ vals_p ∧ order_g ≡ₚ vals_g ∧
    series_on 0 evs
      = map (λ v, plain_series (class_points v pa pb pc)) order_p
          ++ [(SFloat ca, SFloat cb, Some "red", Some 50%Z, Some "x")] ∧
    series_on 1 evs
      = map (λ v, plain_series (class_points v ga gb gc)) order_g ∧
    length (filter (λ sr, auto_coloured sr = true) (series_on 0 evs))
      = length vals_p ∧
    filter (λ sr, x_marked sr = true) (series_on 0 evs)
      = [(SFloat ca, SFloat cb, Some "red", Some 50%Z, Some "x")] ∧
    length (series_on 0 evs) = length vals_p + 1 ∧
    length (series_on 1 evs) = length vals_g ∧
    Forall (λ sr, auto_coloured sr = true) (series_on 1 evs).
Proof.
  intros Hpab Hpbc Hgab Hgbc Hcab Hndp Hsp Hndg Hsg.
  exists (figure_events pa pb pc ga gb gc ca cb),
    (unique_from [] pc), (unique_from [] gc).
  split; [intros w1; by apply draw_run|]. split.
  { intros Hp Hg Hc.
    rewrite plot_comparison_unfold, load_inputs_run, Hp, Hg, Hc.
    rewrite (bind_ok _ _ _ _ _ (draw_run pa pb pc ga gb gc ca cb _
               Hpab Hgab Hcab)).
    unfold ret. by rewrite logged_logged. }
  split; [by apply unique_from_perm|]. split; [by apply unique_from_perm|].
  assert (H0 : series_on 0 (figure_events pa pb pc ga gb gc ca cb)
               = map (λ v, plain_series (class_points v pa pb pc))
                     (unique_from [] pc)
                   ++ [(SFloat ca, SFloat cb, Some "red", Some 50%Z, Some "x")]).
  { rewrite series_top_figure. f_equal.
    apply map_ext. intros v. by apply class_series_points. }
  assert (H1 : series_on 1 (figure_events pa pb pc ga gb gc ca cb)
               = map (λ v, plain_series (class_points v ga gb gc))
                     (unique_from [] gc)).
  { rewrite series_bottom_figure.
    apply map_ext. intros v. by apply class_series_points. }
  split; [exact H0|]. split; [exact H1|].
  rewrite H0, H1, !filter_app.
  rewrite (filter_map_all (λ sr, auto_coloured sr = true)) by done.
  rewrite (filter_cons_False (λ sr, auto_coloured sr = true)) by done.
  rewrite (filter_cons_True (λ sr, x_marked sr = true)) by done.
  rewrite !filter_nil, app_nil_r, !length_app, !length_map.
  rewrite (unique_from_count vals_p pc Hndp Hsp),
    (unique_from_count vals_g gc Hndg Hsg).
  rewrite filter_x_plain_series.
  split; [reflexivity|]. split; [reflexivity|].
  split; [cbn [length]; lia|]. split; [reflexivity|].
  apply Forall_map, Forall_forall. by intros v _.
Qed.

End Comparator_facts.

(** ** The model at work on the small instance *)

Import Demo.

Section Demo_facts.

Lemma Z_to_int_proper z : Z.to_int z ≠ Pos Nil ∧ Z.to_int z ≠ Neg Nil.
Proof.
  destruct z as [|p|p]; cbn; split; try discriminate;
    intros [= Hp]; by apply DecimalPos.Unsigned.to_uint_nonnil in Hp.
Qed.

Lemma int_text_str_of_Z z : int_text (str_of_Z z) = Some z.
Proof.
  unfold int_text, str_of_Z.
  destruct (Z_to_int_proper z) as [Hp Hn].
  rewrite NilZero.isi by done. cbn. by rewrite DecimalZ.of_to.
Qed.

Lemma uint_text_dot_free d : sep_free "." (NilEmpty.string_of_uint d).
Proof.
  induction d; simpl; [by apply not_elem_of_nil| ..];
    (apply sep_free_cons; split; [discriminate | assumption]).
Qed.

Lemma str_of_Z_dot_free z : sep_free "." (str_of_Z z).
Proof.
  unfold str_of_Z, NilZero.string_of_int, NilZero.string_of_uint.
  destruct (Z.to_int z) as [d|d]; destruct d;
    repeat (apply sep_free_cons; split; [discriminate|]);
    first [ by apply not_elem_of_nil | apply uint_text_dot_free ].
Qed.

Lemma sep_free_app sep a b :
  sep_free sep a → sep_free sep b → sep_free sep (a +:+ b).
Proof.
  intros Ha Hb. induction a as [|c a IH]; [done|].
  apply sep_free_cons in Ha as [Hc Ha].
  change (String c a +:+ b) with (String c (a +:+ b)).
  apply sep_free_cons. split; [done|]. by apply IH.
Qed.

Lemma whole_text_str_of_Z z : whole_text (str_of_Z z) = Some z.
Proof.
  unfold whole_text.
  rewrite split_fields_sep_free by apply str_of_Z_dot_free.
  apply int_text_str_of_Z.
Qed.

Lemma whole_text_repr z : whole_text (str_of_Z z +:+ ".0") = Some z.
Proof.
  unfold whole_text.
  change (str_of_Z z +:+ ".0") with (str_of_Z z +:+ String "." "0").
  rewrite split_fields_app by apply str_of_Z_dot_free.
  change (split_fields "." "0") with ["0"].
  change (forallb is_zero (chars "0")) with true. cbv iota.
  apply int_text_str_of_Z.
Qed.

(** No missing-value marker is the text of a whole number. *)
Lemma na_values_not_whole : Forall (λ t, whole_text t = None) na_values.
Proof. repeat constructor. Qed.

Lemma whole_text_not_na t z :
  whole_text t = Some z → bool_decide (t ∈ na_values) = false.
Proof.
  intros Ht. apply bool_decide_eq_false. intros Hin.
  pose proof na_values_not_whole as Hall. rewrite Forall_forall in Hall.
  rewrite (Hall t Hin) in Ht. done.
Qed.

Lemma IntFloat_parse_whole t z :
  whole_text t = Some z → f_parse (F:=IntFloat) t = Some (Some z).
Proof.
  intros Ht.
  change (f_parse (F:=IntFloat) t)
    with (if bool_decide (t ∈ na_values) then Some (None : IntFloat)
          else match whole_text t with
               | Some z => Some (Some z)
               | None => None
               end).
  by rewrite (whole_text_not_na t z Ht), Ht.
Qed.

Lemma IntFloat_parse_repr (x : IntFloat) : f_parse (f_repr x) = Some x.
Proof.
  destruct x as [z|]; [|reflexivity].
  apply IntFloat_parse_whole, whole_text_repr.
Qed.

(** The text of the whole-number floats reads back exactly. *)
Lemma IntFloat_text : FloatText IntFloat eq.
Proof.
  split.
  - intros [z|]; [|apply not_elem_of_nil].
    apply sep_free_app; [apply str_of_Z_sep_free|].
    by apply (bool_decide_unpack _).
  - intros x. exists x. by rewrite IntFloat_parse_repr.
  - intros n _. apply IntFloat_parse_whole, whole_text_str_of_Z.
Qed.

End Demo_facts.

(** The Generator run twice from the same state, with and without the
    flag: 301 lines in each file, the plot calls only in the first log. *)
Example generator_demo :
  let r1 := gen_ex_data "/repo/scripts/gen_ex_data.py"
              ["gen_ex_data.py"; "--plot"] Demo.w0 in
  let r2 := gen_ex_data "/repo/scripts/gen_ex_data.py"
              ["gen_ex_data.py"] Demo.w0 in
  (take 3 <$> files r1.2 !! "/repo/scripts/../files/ground_truth.csv")
    = Some ["feature_0;feature_1;cls"; "4.0;105.0;0"; "5.0;106.0;0"] ∧
  (length <$> files r1.2 !! "/repo/scripts/../files/sample_data.csv") = Some 301 ∧
  files r1.2 = files r2.2 ∧
  length (log r1.2) = 5 ∧ length (log r2.2) = 3.
Proof. vm_compute. repeat split. Qed.

(** [read_csv] on small inputs: the skipped line, an empty line and a
    line of a space and a tab, a short record; a record wider than the
    table; a first record wider than the names, whose leading field
    leaves the frame; a text that is no number; missing-value markers;
    no record at all. *)
Example parse_csv_demo :
  parse_csv (F:=IntFloat) ";" names3 1
    ["a;b;c"; "1;2;0"; ""; String " " (String "009" ""); "3.0;4"]
    = inr [("feature_1", SFloat [Some 1%Z; Some 3%Z]);
           ("feature_2", SFloat [Some 2%Z; Some 4%Z]);
           ("cls", SFloat [Some 0%Z; None])] ∧
  parse_csv (F:=IntFloat) ";" names2 0 ["1;2"; "3;4;5"] = inl ParserError ∧
  parse_csv (F:=IntFloat) ";" names2 0 ["9;1;2"; "8;3;4"; "5;6"]
    = inr [("feature_1", SFloat [Some 1%Z; Some 3%Z; Some 6%Z]);
           ("feature_2", SFloat [Some 2%Z; Some 4%Z; None])] ∧
  parse_csv (F:=IntFloat) ";" names2 0 ["1;2"; "x;3"] = inl ValueError ∧
  parse_csv (F:=IntFloat) ";" names2 0 ["1;NA"; ";nan"]
    = inr [("feature_1", SFloat [Some 1%Z; None]);
           ("feature_2", SFloat [None; None])] ∧
  parse_csv (F:=IntFloat) ";" names2 0 [] = inr [("feature_1", SFloat []);
                                                 ("feature_2", SFloat [])].
Proof. vm_compute. repeat split. Qed.

(** The calls of the Comparator on three predicted classes, in order. *)
Example comparator_demo :
  log (plot_comparison script w_three_classes).2
  = [EvReadCsv "/repo/scripts/../files/predicted_classes.csv" ";"
       ["feature_1"; "feature_2"; "cls"] 0;
     EvReadCsv "/repo/scripts/../files/ground_truth.csv" ";"
       ["feature_1"; "feature_2"; "cls"] 1;
     EvReadCsv "/repo/scripts/../files/clusters.csv" ";"
       ["feature_1"; "feature_2"] 0;
     EvSubplots 2 1;
     EvScatter 0 (SFloat [Some 1; Some 5]) (SFloat [Some 2; Some 6])
       None None None;
     EvScatter 0 (SFloat [Some 3]) (SFloat [Some 4]) None None None;
     EvScatter 0 (SFloat [Some 7]) (SFloat [Some 8]) None None None;
     EvScatter 1 (SFloat [Some 1]) (SFloat [Some 2]) None None None;
     EvScatter 1 (SFloat [Some 3]) (SFloat [Some 4]) None None None;
     EvScatter 0 (SFloat [Some 2; Some 4]) (SFloat [Some 3; Some 5])
       (Some "red") (Some 50) (Some "x");
     EvSetTitle 0 "Prediction"; EvSetTitle 1 "Ground Truth"; EvShow]%Z.
Proof. vm_compute. reflexivity. Qed.

(** C1, witness: the whole-number floats satisfy the text laws, and the
    round trip holds for a run on them. *)
Lemma ground_truth_round_trip_witness :
  FloatText Demo.IntFloat eq ∧
  ∃ (xs ys : list Demo.IntFloat) w' (xs' ys' cs' : list Demo.IntFloat) w'',
    gen_ex_data "/repo/scripts/gen_ex_data.py" ["gen_ex_data.py"] Demo.w0
    = (inr (dataset xs ys), w') ∧
    read_csv (out_path "/repo/scripts/gen_ex_data.py" +:+ "/ground_truth.csv")
             ";" names3 1 w'
    = (inr [("feature_1", SFloat xs'); ("feature_2", SFloat ys');
            ("cls", SFloat cs')], w'') ∧
    length xs' = nrows (dataset xs ys) ∧
    nrows (dataset xs ys) = N_CLASSES * N_SAMPLES ∧
    Forall2 eq xs xs' ∧ Forall2 eq ys ys' ∧
    Forall2 (λ c c', c' = f_of_int c) (grouped_labels N_CLASSES N_SAMPLES) cs'.
Proof.
  split; [exact IntFloat_text|].
  exact (@ground_truth_round_trip Demo.IntFloat nat _ _ _ eq IntFloat_text
           "/repo/scripts/gen_ex_data.py" ["gen_ex_data.py"] Demo.w0).
Defined.

(** C8, witness: two argument lists that both hold the flag, with other
    arguments around it, and a second process with a variable set. *)
Lemma plot_flag_only_witness :
  ("--plot" ∈ ["gen_ex_data.py"; "--plot"; "7"]
   ↔ "--plot" ∈ ["--plot"; "gen_ex_data.py"]) ∧
  ∃ (df : DataFrame Demo.IntFloat) w1 new,
    gen_ex_data "/repo/scripts/gen_ex_data.py"
      ["gen_ex_data.py"; "--plot"; "7"] Demo.w0 = (inr df, w1) ∧
    gen_ex_data "/repo/scripts/gen_ex_data.py"
      ["--plot"; "gen_ex_data.py"] Demo.w0 = (inr df, w1) ∧
    gen_ex_data "/repo/scripts/gen_ex_data.py" ["--plot"; "gen_ex_data.py"]
      (set_environ Demo.w0 (<["MPLBACKEND" := "Agg"]> ∅))
    = (inr df, set_environ w1 (<["MPLBACKEND" := "Agg"]> ∅)) ∧
    environ w1 = environ Demo.w0 ∧
    log w1 = log Demo.w0 ++ new ∧
    filter (λ e, is_plot e = true) new
    = (if bool_decide ("--plot" ∈ ["gen_ex_data.py"; "--plot"; "7"])
       then [EvPairplot df "cls"; EvShow] else []).
Proof.
  assert (H : "--plot" ∈ ["gen_ex_data.py"; "--plot"; "7"]
              ↔ "--plot" ∈ ["--plot"; "gen_ex_data.py"])
    by (split; intros _; repeat constructor).
  split; [exact H|].
  exact (plot_flag_only "/repo/scripts/gen_ex_data.py" _ _ Demo.w0
           (<["MPLBACKEND" := "Agg"]> ∅) H).
Defined.

(** C6, witness: four predicted points in three classes give three
    series of the points of each class and the one [x] series on the top
    axes, two true classes two series on the bottom axes; the inputs of
    the world load as these frames. *)
Lemma scatter_series_per_class_witness :
  let pa : list IntFloat := [Some 1; Some 3; Some 5; Some 7]%Z in
  let pb : list IntFloat := [Some 2; Some 4; Some 6; Some 8]%Z in
  let pc : list IntFloat := [Some 0; Some 1; Some 0; Some 2]%Z in
  let ga : list IntFloat := [Some 1; Some 3]%Z in
  let gb : list IntFloat := [Some 2; Some 4]%Z in
  let gc : list IntFloat := [Some 0; Some 1]%Z in
  let ca : list IntFloat := [Some 2; Some 4]%Z in
  let cb : list IntFloat := [Some 3; Some 5]%Z in
  let vals_p : list IntFloat := [Some 0; Some 1; Some 2]%Z in
  let vals_g : list IntFloat := [Some 1; Some 0]%Z in
  read_result w_three_classes (out_path script +:+ "/predicted_classes.csv")
    names3 0 = inr (labelled_frame pa pb pc) ∧
  read_result w_three_classes (out_path script +:+ "/ground_truth.csv")
    names3 1 = inr (labelled_frame ga gb gc) ∧
  read_result w_three_classes (out_path script +:+ "/clusters.csv")
    names2 0 = inr (centers_frame ca cb) ∧
  NoDup vals_p ∧ (∀ v, v ∈ vals_p ↔ v ∈ pc) ∧
  NoDup vals_g ∧ (∀ v, v ∈ vals_g ↔ v ∈ gc) ∧
  ∃ evs order_p order_g,
    (∀ w1 : World nat IntFloat,
       draw (labelled_frame pa pb pc) (labelled_frame ga gb gc)
            (centers_frame ca cb) w1
       = (inr tt, logged w1 evs)) ∧
    (read_result w_three_classes (out_path script +:+ "/predicted_classes.csv")
       names3 0 = inr (labelled_frame pa pb pc) →
     read_result w_three_classes (out_path script +:+ "/ground_truth.csv")
       names3 1 = inr (labelled_frame ga gb gc) →
     read_result w_three_classes (out_path script +:+ "/clusters.csv")
       names2 0 = inr (centers_frame ca cb) →
     plot_comparison script w_three_classes
     = (inr (labelled_frame pa pb pc, labelled_frame ga gb gc,
             centers_frame ca cb),
        logged w_three_classes (read_events script ++ evs))) ∧
    order_p ≡ₚ vals_p ∧ order_g ≡ₚ vals_g ∧
    series_on 0 evs
      = map (λ v, plain_series (class_points v pa pb pc)) order_p
          ++ [(SFloat ca, SFloat cb, Some "red", Some 50%Z, Some "x")] ∧
    series_on 1 evs
      = map (λ v, plain_series (class_points v ga gb gc)) order_g ∧
    length (filter (λ sr, auto_coloured sr = true) (series_on 0 evs))
      = length vals_p ∧
    filter (λ sr, x_marked sr = true) (series_on 0 evs)
      = [(SFloat ca, SFloat cb, Some "red", Some 50%Z, Some "x")] ∧
    length (series_on 0 evs) = length vals_p + 1 ∧
    length (series_on 1 evs) = length vals_g ∧
    Forall (λ sr, auto_coloured sr = true) (series_on 1 evs).
Proof.
  intros pa pb pc ga gb gc ca cb vals_p vals_g.
  assert (Hndp : NoDup vals_p) by (by apply (bool_decide_unpack _)).
  assert (Hndg : NoDup vals_g) by (by apply (bool_decide_unpack _)).
  assert (Hsp : ∀ v, v ∈ vals_p ↔ v ∈ pc).
  { intros v. split; intros Hv;
      repeat (apply elem_of_cons in Hv as [->|Hv]; [by repeat constructor|]);
      by apply elem_of_nil in Hv. }
  assert (Hsg : ∀ v, v ∈ vals_g ↔ v ∈ gc).
  { intros v. split; intros Hv;
      repeat (apply elem_of_cons in Hv as [->|Hv]; [by repeat constructor|]);
      by apply elem_of_nil in Hv. }
  split; [vm_compute; reflexivity|]. split; [vm_compute; reflexivity|].
  split; [vm_compute; reflexivity|].
  split; [exact Hndp|]. split; [exact Hsp|].
  split; [exact Hndg|]. split; [exact Hsg|].
  pose proof (scatter_series_per_class script w_three_classes
                pa pb pc ga gb gc ca cb vals_p vals_g
                eq_refl eq_refl eq_refl eq_refl eq_refl
                Hndp Hsp Hndg Hsg) as Hseries.
  exact Hseries.
Defined.





(** ** More about the Generator *)

Section Generator_more.
Context {F G : Type} `{!Float64 F} `{!Rng G F} `{!OsPath}.
Implicit Types (w : World G F) (g : G) (d : gset string)
  (f : gmap string (list string)) (lg : list (Event F)).

Lemma mkdir_events_no_read file w :
  Forall (λ e : Event F, is_read e = false)
    (if path_exists w (out_path file) then []
     else [EvMkdir (out_path file)]).
Proof. destruct (path_exists w (out_path file)); repeat constructor. Qed.

Lemma sample_path_differs file :
  out_path file +:+ "/sample_data.csv" ≠ out_path file +:+ "/ground_truth.csv".
Proof. intros E. by apply append_inj_l in E. Qed.

(** X1. A run of the Generator leaves every file but its two outputs as
    it was, keeps the directories it found and adds at most the output
    directory, and never calls [read_csv]. *)
Theorem generator_touches_two_files file argv w :
  (∀ path,
     path ≠ out_path file +:+ "/sample_data.csv" →
     path ≠ out_path file +:+ "/ground_truth.csv" →
     files (gen_ex_data file argv w).2 !! path = files w !! path) ∧
  dirs w ⊆ dirs (gen_ex_data file argv w).2 ∧
  dirs (gen_ex_data file argv w).2 ⊆ {[out_path file]} ∪ dirs w ∧
  ∃ evs, log (gen_ex_data file argv w).2 = log w ++ evs ∧
         Forall (λ e, is_read e = false) evs.
Proof.
  destruct (gen_ex_data_run file w) as (xs & ys & g' & _ & _ & Hrun).
  rewrite (Hrun argv). cbn [snd files dirs log]. split; [|split; [|split]].
  - intros path Hs Hg. by rewrite !lookup_insert_ne.
  - destruct (path_exists w (out_path file)); [done|]. apply union_subseteq_r.
  - destruct (path_exists w (out_path file)); [|done]. apply union_subseteq_r.
  - eexists. split; [reflexivity|].
    apply Forall_app. split; [apply mkdir_events_no_read|].
    apply Forall_app. split; [case_bool_decide|]; repeat constructor.
Qed.

Lemma filter_mkdir_tail file (argv : list string) (df : DataFrame F) :
  filter (λ e : Event F, is_mkdir e = true)
    ((if bool_decide ("--plot" ∈ argv)
      then [EvPairplot df "cls"; EvShow] else [])
       ++ [EvToCsv (out_path file +:+ "/sample_data.csv");
           EvToCsv (out_path file +:+ "/ground_truth.csv")]) = [].
Proof. by case_bool_decide. Qed.

(** X2. When the output path is not taken by a regular file, it is a
    directory after the run.  A directory that was there is kept and the
    set of directories is left as it was; otherwise [os.mkdir] is the
    first call of the run and the only [os.mkdir] call, and the output
    path is the one directory added. *)
Theorem output_directory_created file argv w :
  files w !! out_path file = None →
  out_path file ∈ dirs (gen_ex_data file argv w).2 ∧
  (out_path file ∈ dirs w → dirs (gen_ex_data file argv w).2 = dirs w) ∧
  (out_path file ∉ dirs w →
     dirs (gen_ex_data file argv w).2 = {[out_path file]} ∪ dirs w) ∧
  ∃ evs, log (gen_ex_data file argv w).2 = log w ++ evs ∧
         filter (λ e, is_mkdir e = true) evs
         = (if bool_decide (out_path file ∈ dirs w) then []
            else [EvMkdir (out_path file)]) ∧
         (out_path file ∉ dirs w →
            ∃ rest, evs = EvMkdir (out_path file) :: rest).
Proof.
  intros Hfree.
  destruct (gen_ex_data_run file w) as (xs & ys & g' & _ & _ & Hrun).
  rewrite (Hrun argv). cbn [snd files dirs log].
  assert (Hex : path_exists w (out_path file)
                = bool_decide (out_path file ∈ dirs w)).
  { unfold path_exists. rewrite Hfree.
    rewrite (bool_decide_eq_false_2 (is_Some None)) by (by intros [? ?]).
    apply orb_false_r. }
  rewrite Hex. case_bool_decide as Hdir.
  - split; [done|]. split; [done|]. split; [done|].
    eexists. split; [reflexivity|]. cbn [app].
    split; [apply filter_mkdir_tail|done].
  - split; [apply elem_of_union_l, elem_of_singleton; reflexivity|].
    split; [done|]. split; [done|].
    eexists. split; [reflexivity|]. cbn [app].
    split; [|by eexists].
    rewrite filter_cons_True by done. f_equal. apply filter_mkdir_tail.
Qed.

Lemma dir_exists_after file w g' a x b y lg' env' :
  path_exists
    (mkWorld g' (if path_exists w (out_path file) then dirs w
                 else {[out_path file]} ∪ dirs w)
                (<[a := x]> (<[b := y]> (files w))) lg' env')
    (out_path file) = true.
Proof.
  unfold path_exists at 1. cbn [dirs files].
  destruct (path_exists w (out_path file)) eqn:Hex.
  - unfold path_exists in Hex. apply orb_true_iff in Hex as [Hd|Hf].
    + by rewrite Hd.
    + apply orb_true_iff. right. apply bool_decide_eq_true.
      apply bool_decide_eq_true in Hf. rewrite !lookup_insert_is_Some'. tauto.
  - apply orb_true_iff. left. apply bool_decide_eq_true.
    apply elem_of_union_l, elem_of_singleton. reflexivity.
Qed.

(** X3. The Generator can be run again on what it left: the second run
    ends normally, finds the directory and does not call [os.mkdir], and
    both files then hold the second dataset, the first one overwritten. *)
Theorem generator_rerun file argv argv' w :
  ∃ (xs1 ys1 xs2 ys2 : list F) w1 w2 evs,
    gen_ex_data file argv w = (inr (dataset xs1 ys1), w1) ∧
    gen_ex_data file argv' w1 = (inr (dataset xs2 ys2), w2) ∧
    dirs w2 = dirs w1 ∧
    log w2 = log w1 ++ evs ∧
    Forall (λ e, is_mkdir e = false) evs ∧
    files w2 !! (out_path file +:+ "/sample_data.csv")
      = Some (csv_lines ";" (features xs2 ys2)) ∧
    files w2 !! (out_path file +:+ "/ground_truth.csv")
      = Some (csv_lines ";" (dataset xs2 ys2)).
Proof.
  destruct (gen_ex_data_run file w) as (xs1 & ys1 & g1 & _ & _ & Hrun1).
  specialize (Hrun1 argv).
  match type of Hrun1 with _ = (_, ?w') => set (w1 := w') in * end.
  destruct (gen_ex_data_run file w1) as (xs2 & ys2 & g2 & _ & _ & Hrun2).
  specialize (Hrun2 argv').
  assert (Hex : path_exists w1 (out_path file) = true)
    by apply dir_exists_after.
  rewrite Hex in Hrun2.
  eexists xs1, ys1, xs2, ys2, w1, _, _.
  split; [exact Hrun1|]. split; [exact Hrun2|]. cbn [dirs log files].
  split; [reflexivity|]. split; [reflexivity|]. split.
  - cbn [app]. apply Forall_app. split; [case_bool_decide|]; repeat constructor.
  - split.
    + rewrite lookup_insert_ne by apply output_paths_differ.
      by rewrite lookup_insert_eq.
    + by rewrite lookup_insert_eq.
Qed.

(** *** Computations that only draw *)

Lemma rng_only_ret {A} (a : A) : rng_only (ret (F:=F) (G:=G) a).
Proof. intros g. by exists (inr a), g. Qed.

Lemma rng_only_lift {A} (r : Exn + A) : rng_only (lift (F:=F) (G:=G) r).
Proof. intros g. by exists r, g. Qed.

Lemma rng_only_with_rng {A} (h : G → A * G) : rng_only (with_rng (F:=F) h).
Proof.
  intros g. exists (inr (h g).1), (h g).2. intros d f lg env.
  unfold with_rng. cbn [rng dirs files log environ]. by destruct (h g).
Qed.

Lemma rng_only_bind {A B} (m : @M F G A) (k : A → M B) :
  rng_only m → (∀ a, rng_only (k a)) → rng_only (bind m k).
Proof.
  intros Hm Hk g. destruct (Hm g) as ([e|a] & g1 & H1).
  - exists (inl e), g1. intros d f lg env. unfold bind. by rewrite H1.
  - destruct (Hk a g1) as (r & g2 & H2). exists r, g2. intros d f lg env.
    unfold bind. by rewrite H1, H2.
Qed.

Lemma rng_only_foldM {A B} (body : B → A → @M F G B) xs acc :
  (∀ b a, rng_only (body b a)) → rng_only (foldM body xs acc).
Proof.
  intros Hbody. revert acc. induction xs as [|x xs IH]; intros acc; cbn [foldM].
  - apply rng_only_ret.
  - apply rng_only_bind; [apply Hbody|]. intros b. apply IH.
Qed.

Lemma rng_only_class_frame cls : rng_only (class_frame (F:=F) (G:=G) cls).
Proof.
  unfold class_frame, np_random_uniform, np_random_normal.
  apply rng_only_bind; [apply rng_only_with_rng|]. intros locs.
  apply rng_only_bind; [apply rng_only_with_rng|]. intros stds.
  apply rng_only_bind.
  - apply rng_only_foldM. intros tmp [i [std loc]].
    apply rng_only_bind; [apply rng_only_with_rng|]. intros xs.
    apply rng_only_lift.
  - intros tmp. apply rng_only_bind; [apply rng_only_lift|]. intros tmp'.
    apply rng_only_ret.
Qed.

(** Lines 19-30 read and write nothing but the generator. *)
Lemma rng_only_make_dataset : rng_only (make_dataset (F:=F) (G:=G)).
Proof.
  unfold make_dataset. apply rng_only_bind; [|intros dfs; apply rng_only_lift].
  apply rng_only_foldM. intros dfs cls.
  apply rng_only_bind; [apply rng_only_class_frame|]. intros tmp.
  apply rng_only_ret.
Qed.

(** The dataset of a run is the one lines 19-30 build from the generator
    the run starts with, on any disk. *)
Lemma gen_ex_data_value file argv w :
  ∃ (xs ys : list F) g',
    (∀ d f lg env, make_dataset (mkWorld (rng w) d f lg env)
                   = (inr (dataset xs ys), mkWorld g' d f lg env)) ∧
    (gen_ex_data file argv w).1 = inr (dataset xs ys) ∧
    rng (gen_ex_data file argv w).2 = g' ∧
    files (gen_ex_data file argv w).2 !! (out_path file +:+ "/sample_data.csv")
      = Some (csv_lines ";" (features xs ys)) ∧
    files (gen_ex_data file argv w).2 !! (out_path file +:+ "/ground_truth.csv")
      = Some (csv_lines ";" (dataset xs ys)).
Proof.
  destruct (gen_ex_data_from file (rng w))
    as (xs & ys & g' & _ & _ & Hds & Hrun).
  exists xs, ys, g'. split; [exact Hds|].
  rewrite (Hrun argv w eq_refl). cbn [fst snd rng files].
  split; [reflexivity|]. split; [reflexivity|]. split.
  - rewrite lookup_insert_ne by apply output_paths_differ.
    by rewrite lookup_insert_eq.
  - by rewrite lookup_insert_eq.
Qed.

(** X4. What the Generator returns and writes is fixed by the state of the
    random generator it starts from: two runs from the same generator
    state, on any two disks and with any arguments, give the same
    dataset, the same contents of both files and the same generator
    state afterwards. *)
Theorem generator_output_from_rng file argv argv' w1 w2 :
  rng w1 = rng w2 →
  (gen_ex_data file argv w1).1 = (gen_ex_data file argv' w2).1 ∧
  rng (gen_ex_data file argv w1).2 = rng (gen_ex_data file argv' w2).2 ∧
  files (gen_ex_data file argv w1).2 !! (out_path file +:+ "/sample_data.csv")
  = files (gen_ex_data file argv' w2).2 !! (out_path file +:+ "/sample_data.csv") ∧
  files (gen_ex_data file argv w1).2 !! (out_path file +:+ "/ground_truth.csv")
  = files (gen_ex_data file argv' w2).2 !! (out_path file +:+ "/ground_truth.csv").
Proof.
  intros Hrng.
  destruct (gen_ex_data_value file argv w1)
    as (xs & ys & g1 & H1 & -> & -> & -> & ->).
  destruct (gen_ex_data_value file argv' w2)
    as (xs' & ys' & g2 & H2 & -> & -> & -> & ->).
  rewrite <- Hrng in H2.
  specialize (H1 ∅ ∅ [] ∅). rewrite (H2 ∅ ∅ [] ∅) in H1.
  injection H1 as -> -> ->. done.
Qed.

(** X5. For every class, the means of the two features are drawn first
    (uniform on 0.0 to 1.0), then the two standard deviations (uniform on
    0.0 to 0.15), then the [N_SAMPLES] values of [feature_0] from the
    normal law with the first mean and the first deviation, then those
    of [feature_1] with the second mean and the second deviation. *)
Theorem class_frame_draws cls g d f lg env :
  ∃ (l0 l1 s0 s1 : F) g1 g2 (xs : list F) g3 (ys : list F) g4,
    draws (uniform1 (f_lit "0.0") (f_lit "1.0")) N_DIMS g = ([l0; l1], g1) ∧
    draws (uniform1 (f_lit "0.0") (f_lit "0.15")) N_DIMS g1 = ([s0; s1], g2) ∧
    draws (normal1 l0 s0) N_SAMPLES g2 = (xs, g3) ∧
    draws (normal1 l1 s1) N_SAMPLES g3 = (ys, g4) ∧
    class_frame cls (mkWorld g d f lg env)
    = (inr [("feature_0", SFloat xs); ("feature_1", SFloat ys);
            ("cls", SInt (replicate N_SAMPLES (Z.of_nat cls)))],
       mkWorld g4 d f lg env).
Proof.
  destruct (class_frame_steps cls g)
    as (l0 & l1 & s0 & s1 & g1 & g2 & xs & g3 & ys & g4
        & D1 & D2 & D3 & D4 & _ & _ & E).
  exists l0, l1, s0, s1, g1, g2, xs, g3, ys, g4.
  do 4 (split; [assumption|]). apply E.
Qed.

End Generator_more.

(** ** More about the Comparator *)

Section Comparator_more.
Context {F G : Type} `{!Float64 F} `{!Rng G F} `{!OsPath}.
Implicit Types (w : World G F) (df : DataFrame F).

Lemma figure_events_quiet pa pb pc ga gb gc ca cb :
  Forall (λ e : Event F, is_write e = false ∧ is_mkdir e = false ∧ is_read e = false)
    (figure_events pa pb pc ga gb gc ca cb).
Proof.
  unfold figure_events. repeat apply Forall_app_2;
    try (apply Forall_map, Forall_forall; by intros v _);
    by repeat constructor.
Qed.

Lemma read_events_quiet file n :
  Forall (λ e : Event F, is_write e = false ∧ is_mkdir e = false)
    (take n (read_events file)).
Proof. destruct n as [|[|[|[|n]]]]; by repeat constructor. Qed.

(** X6. The Comparator changes nothing: whether a run ends normally or
    with an exception, files, directories and the random generator are as
    before, and the run has called neither [to_csv] nor [os.mkdir]. *)
Theorem comparator_read_only file w :
  files (plot_comparison file w).2 = files w ∧
  dirs (plot_comparison file w).2 = dirs w ∧
  rng (plot_comparison file w).2 = rng w ∧
  ∃ evs, log (plot_comparison file w).2 = log w ++ evs ∧
         Forall (λ e, is_write e = false ∧ is_mkdir e = false) evs.
Proof.
  destruct (plot_comparison_cases file w)
    as [(pa & pb & pc & ga & gb & gc & ca & cb & _ & _ & _ & Hrun)
       |(e & n & Hrun & _)]; cbv zeta in *; rewrite Hrun; cbn [snd logged files dirs rng log];
    (do 3 (split; [reflexivity|])); eexists; (split; [reflexivity|]).
  - apply Forall_app. split.
    + apply (read_events_quiet file 3).
    + eapply Forall_impl; [apply figure_events_quiet|]. by intros e (? & ? & _).
  - apply read_events_quiet.
Qed.

(** X7. An input that is not on disk, when the inputs before it load, ends
    the run with [FileNotFoundError] right after the [read_csv] call for
    it: the later inputs are not looked at and no figure is made. *)
Theorem comparator_missing_input file w n path names k :
  comparator_inputs file !! n = Some (path, ";"%char, names, k) →
  (∀ j p ns kk, j < n →
     comparator_inputs file !! j = Some (p, ";"%char, ns, kk) →
     ∃ df : DataFrame F, read_result w p ns kk = inr df) →
  files w !! path = None →
  plot_comparison file w
  = (inl FileNotFoundError, logged w (take (S n) (read_events file))).
Proof.
  intros Hn Hbefore Hnone.
  assert (Hread : read_result w path names k = inl FileNotFoundError)
    by (unfold read_result; by rewrite Hnone).
  rewrite plot_comparison_unfold, load_inputs_run.
  destruct n as [|[|[|n]]]; cbn in Hn; [| | |done];
    injection Hn as <- <- <-.
  - fold names3 in Hread. by rewrite Hread.
  - destruct (Hbefore 0 (out_path file +:+ "/predicted_classes.csv") names3 0
                ltac:(lia) eq_refl) as [p ->].
    fold names3 in Hread. by rewrite Hread.
  - destruct (Hbefore 0 (out_path file +:+ "/predicted_classes.csv") names3 0
                ltac:(lia) eq_refl) as [p ->].
    destruct (Hbefore 1 (out_path file +:+ "/ground_truth.csv") names3 1
                ltac:(lia) eq_refl) as [g ->].
    fold names2 in Hread. by rewrite Hread.
Qed.

(** X8. A run that ends normally has, after its three reads, made the
    figure in this order: [plt.subplots(2, 1)]; the scatter calls of the
    predicted classes on the top axes; those of the true classes on the
    bottom axes; the red [x] scatter of the cluster centers on the top
    axes, hence drawn over the points; the titles [Prediction] (top) and
    [Ground Truth] (bottom); and [plt.show()] last, once. *)
Theorem figure_layout file w p g c w' :
  plot_comparison file w = (inr (p, g, c), w') →
  ∃ top bottom cx cy,
    w' = logged w
           (read_events file ++ [EvSubplots 2 1] ++ top ++ bottom
              ++ [EvScatter 0 cx cy (Some "red") (Some 50%Z) (Some "x");
                  EvSetTitle 0 "Prediction"; EvSetTitle 1 "Ground Truth";
                  EvShow]) ∧
    Forall (λ e, ∃ x y, e = EvScatter 0 x y None None None) top ∧
    Forall (λ e, ∃ x y, e = EvScatter 1 x y None None None) bottom ∧
    df_get c "feature_1" = Some cx ∧ df_get c "feature_2" = Some cy.
Proof.
  intros Hrun.
  destruct (plot_comparison_cases file w)
    as [(pa & pb & pc & ga & gb & gc & ca & cb & _ & _ & _ & Hrun')
       |(e & n & Hrun' & _)]; [|congruence].
  cbv zeta in *. rewrite Hrun' in Hrun. injection Hrun as <- <- <- <-.
  exists (map (class_series 0 pa pb pc) (unique_from [] pc)),
    (map (class_series 1 ga gb gc) (unique_from [] gc)), (SFloat ca), (SFloat cb).
  split; [reflexivity|].
  split; [apply Forall_map, Forall_forall; intros v _; by eexists _, _|].
  split; [apply Forall_map, Forall_forall; intros v _; by eexists _, _|].
  done.
Qed.

(** *** The points of the series *)

Lemma mask_count (c a : list F) v :
  length a = length c →
  length (mask_list (map (λ x, f_eqb x v) c) a)
  = length (filter (λ x, f_eqb x v = true) c).
Proof.
  revert a. induction c as [|x c IH]; intros [|y a] Hl; try done.
  injection Hl as Hl. cbn [map mask_list].
  destruct (f_eqb x v) eqn:E.
  - rewrite filter_cons_True by done. cbn [length]. by rewrite IH.
  - rewrite filter_cons_False by (by rewrite E). by apply IH.
Qed.

Lemma mask_all_false (c a : list F) v :
  (∀ x, x ∈ c → f_eqb x v = false) →
  mask_list (map (λ x, f_eqb x v) c) a = [].
Proof.
  revert a. induction c as [|x c IH]; intros a Hall; [done|].
  destruct a as [|y a]; [done|]. cbn [map mask_list].
  rewrite (Hall x) by apply list_elem_of_here.
  apply IH. intros z Hz. apply Hall. by apply list_elem_of_further.
Qed.

Lemma sum_list_zero {A} (l : list A) : sum_list (map (λ _, 0) l) = 0.
Proof. by induction l. Qed.

Lemma sum_list_plus {A} (a b : A → nat) (l : list A) :
  sum_list (map (λ v, a v + b v) l) = sum_list (map a l) + sum_list (map b l).
Proof. induction l as [|x l IH]; [done|]. cbn [map]; simpl sum_list. rewrite IH. lia. Qed.

Lemma sum_list_ext {A} (a b : A → nat) (l : list A) :
  (∀ v, v ∈ l → a v = b v) → sum_list (map a l) = sum_list (map b l).
Proof.
  induction l as [|x l IH]; intros Hext; [done|]. cbn [map]; simpl sum_list.
  rewrite (Hext x) by apply list_elem_of_here.
  rewrite IH; [done|]. intros v Hv. apply Hext. by apply list_elem_of_further.
Qed.

(** A value is [==] to exactly one of a list of distinct values that
    holds it. *)
Lemma one_match (U : list F) x :
  NoDup U → x ∈ U →
  (∀ v, v ∈ U → f_eqb x v = true ↔ x = v) →
  sum_list (map (λ v, if f_eqb x v then 1 else 0) U) = 1.
Proof.
  induction 1 as [|u U Hu Hnd IH]; intros Hin Heq;
    [by apply elem_of_nil in Hin|].
  cbn [map]; simpl sum_list.
  assert (Htail : ∀ v, v ∈ U → f_eqb x v = true ↔ x = v)
    by (intros v Hv; apply Heq; by apply list_elem_of_further).
  destruct (decide (x = u)) as [->|Hne].
  - rewrite (proj2 (Heq u (list_elem_of_here _ _)) eq_refl).
    rewrite (sum_list_ext _ (λ _, 0)), sum_list_zero; [done|].
    intros v Hv. destruct (f_eqb u v) eqn:E; [|done].
    apply Htail in E; [|done]. by subst.
  - apply elem_of_cons in Hin as [->|Hin]; [done|].
    destruct (f_eqb x u) eqn:E.
    + apply Heq in E; [done|apply list_elem_of_here].
    + by rewrite IH.
Qed.

(** The rows of a column, counted class by class, are all its rows. *)
Lemma counts_add_up (U c : list F) :
  NoDup U → (∀ x, x ∈ c → x ∈ U) →
  (∀ x v, x ∈ c → v ∈ U → f_eqb x v = true ↔ x = v) →
  sum_list (map (λ v, length (filter (λ x, f_eqb x v = true) c)) U) = length c.
Proof.
  intros Hnd. induction c as [|x c IH]; intros Hin Heq.
  - apply sum_list_zero.
  - rewrite (sum_list_ext _
      (λ v, (if f_eqb x v then 1 else 0)
            + length (filter (λ y, f_eqb y v = true) c))).
    2:{ intros v _. destruct (f_eqb x v) eqn:E.
        - by rewrite filter_cons_True.
        - by rewrite filter_cons_False by (by rewrite E). }
    rewrite sum_list_plus, one_match, IH; [done| | |done| |].
    + intros y Hy. apply Hin. by apply list_elem_of_further.
    + intros y v Hy. apply Heq. by apply list_elem_of_further.
    + apply Hin, list_elem_of_here.
    + intros v. apply Heq, list_elem_of_here.
Qed.

Lemma class_sizes_add_up (a b c : list F) :
  length a = length c →
  (∀ x y, x ∈ c → y ∈ c → f_eqb x y = true ↔ x = y) →
  sum_list (map series_size
              (map (λ v, (SFloat (mask_list (map (λ x, f_eqb x v) c) a),
                          SFloat (mask_list (map (λ x, f_eqb x v) c) b),
                          None, None, None)) (unique_from [] c)))
  = length c ∧
  Forall (λ sr, 0 < series_size sr)
    (map (λ v, (SFloat (mask_list (map (λ x, f_eqb x v) c) a),
                SFloat (mask_list (map (λ x, f_eqb x v) c) b),
                None, None, None)) (unique_from [] c)
       : list (Series F * Series F * option string * option Z * option string)).
Proof.
  intros Hl Heq.
  assert (Hsub : ∀ v, v ∈ unique_from [] c → v ∈ c)
    by (intros v Hv; by apply unique_from_elem in Hv as [? _]).
  split.
  - rewrite map_map. cbn [series_size s_len].
    rewrite (sum_list_ext _ (λ v, length (filter (λ x, f_eqb x v = true) c)))
      by (intros v _; by apply mask_count).
    apply counts_add_up; [apply unique_from_NoDup| |].
    + intros x Hx. apply unique_from_elem. split; [done|apply not_elem_of_nil].
    + intros x v Hx Hv. apply Heq; auto.
  - apply Forall_map, Forall_forall. intros v Hv. cbn [series_size s_len].
    rewrite mask_count by done.
    assert (Hin : v ∈ filter (λ x, f_eqb x v = true) c).
    { apply list_elem_of_filter. split; [|by apply Hsub].
      apply Heq; auto. }
    destruct (filter _ c); [by apply elem_of_nil in Hin|]. cbn. lia.
Qed.

Lemma series_top file (pa pb pc ga gb gc ca cb : list F) :
  series_on 0 (read_events file ++ figure_events pa pb pc ga gb gc ca cb)
  = map (λ v, (SFloat (mask_list (map (λ x, f_eqb x v) pc) pa),
               SFloat (mask_list (map (λ x, f_eqb x v) pc) pb),
               None, None, None)) (unique_from [] pc)
      ++ [(SFloat ca, SFloat cb, Some "red", Some 50%Z, Some "x")].
Proof.
  unfold figure_events. rewrite !series_on_app.
  by rewrite series_on_class_same, series_on_class_other.
Qed.

Lemma filter_ext_elem {A} (P Q : A → Prop) `{!∀ a, Decision (P a)}
    `{!∀ a, Decision (Q a)} (l : list A) :
  (∀ x, x ∈ l → P x ↔ Q x) → filter P l = filter Q l.
Proof.
  induction l as [|x l IH]; intros Hext; [done|].
  assert (Hl : filter P l = filter Q l)
    by (apply IH; intros y Hy; apply Hext; by apply list_elem_of_further).
  destruct (decide (P x)) as [HP|HP].
  - rewrite !filter_cons_True, Hl;
      [done| by apply (Hext x (list_elem_of_here _ _)) | done].
  - rewrite !filter_cons_False, Hl; [done| |done].
    intros HQ. by apply HP, (Hext x (list_elem_of_here _ _)).
Qed.

Lemma elem_of_combine_r {A B} (l : list A) (k : list B) r :
  r ∈ combine l k → r.2 ∈ k.
Proof.
  destruct r as [x y]. intros Hin%list_elem_of_In%in_combine_r.
  by apply list_elem_of_In.
Qed.

Lemma map_fst_combine {A B} (l : list A) (k : list B) :
  length l = length k → map fst (combine l k) = l.
Proof.
  revert k. induction l as [|x l IH]; intros [|y k] Hl; try done.
  cbn. f_equal. apply IH. by injection Hl.
Qed.

(** When [==] on the labels of a column is their identity, the points
    of a class are the points labelled with it. *)
Lemma class_points_labelled v (a b c : list F) :
  (∀ x, x ∈ c → f_eqb x v = true ↔ x = v) →
  class_points v a b c = labelled_points v a b c.
Proof.
  intros Heq. unfold class_points, labelled_points. f_equal.
  apply filter_ext_elem. intros r Hr%elem_of_combine_r. by apply Heq.
Qed.

Lemma concat_filter_nil {A B} (P : B → A → Prop)
    `{!∀ v a, Decision (P v a)} (l : list B) :
  concat (map (λ v, filter (P v) []) l) = [].
Proof. by induction l. Qed.

(** One more row goes to the piece of its label and to no other. *)
Lemma pieces_cons {A B} `{!EqDecision B} (lab : A → B) (r : A)
    (piece : B → list A) (order : list B) :
  NoDup order → lab r ∈ order →
  concat (map (λ v, if decide (lab r = v) then r :: piece v else piece v) order)
  ≡ₚ r :: concat (map piece order).
Proof.
  induction 1 as [|u us Hu Hnd IH]; intros Hin;
    [by apply elem_of_nil in Hin|].
  cbn [map concat]. destruct (decide (lab r = u)) as [<-|Hne].
  - assert (Hrest : map (λ v, if decide (lab r = v) then r :: piece v
                               else piece v) us
                    = map piece us).
    { apply map_ext_in. intros v Hv%list_elem_of_In.
      rewrite decide_False; [done|]. by intros <-. }
    by rewrite Hrest.
  - apply elem_of_cons in Hin as [?|Hin]; [done|].
    rewrite (IH Hin). by rewrite Permutation_middle.
Qed.

(** Rows cut into pieces by label, one piece for each of the distinct
    labels: every row is in exactly one piece. *)
Lemma pieces_by_label {A B} `{!EqDecision B} (lab : A → B) (rows : list A)
    (order : list B) :
  NoDup order → (∀ r, r ∈ rows → lab r ∈ order) →
  concat (map (λ v, filter (λ r, lab r = v) rows) order) ≡ₚ rows.
Proof.
  intros Hnd. induction rows as [|r rows IH]; intros Hin.
  - by rewrite (concat_filter_nil (λ v r, lab r = v)).
  - assert (Hstep :
      map (λ v, filter (λ r0, lab r0 = v) (r :: rows)) order
      = map (λ v, if decide (lab r = v)
                  then r :: filter (λ r0, lab r0 = v) rows
                  else filter (λ r0, lab r0 = v) rows) order).
    { apply map_ext. intros v. destruct (decide (lab r = v)) as [E|E].
      - by rewrite filter_cons_True.
      - by rewrite filter_cons_False. }
    rewrite Hstep, (pieces_cons lab r _ order Hnd)
      by apply Hin, list_elem_of_here.
    rewrite IH; [done|].
    intros r' Hr'. apply Hin. by apply list_elem_of_further.
Qed.

Lemma concat_map_fst {A B C} (piece : C → list (A * B)) (order : list C) :
  concat (map (λ v, map fst (piece v)) order)
  = map fst (concat (map piece order)).
Proof.
  induction order as [|v vs IH]; [done|].
  cbn [map concat]. by rewrite map_app, IH.
Qed.

(** The points of a frame, class by class, are the points of the frame. *)
Lemma labelled_points_all (a b c order : list F) :
  length a = length b → length b = length c →
  NoDup order → (∀ v, v ∈ c → v ∈ order) →
  concat (map (λ v, labelled_points v a b c) order) ≡ₚ combine a b.
Proof.
  intros Hab Hbc Hnd Hin. unfold labelled_points.
  rewrite concat_map_fst.
  transitivity (map fst (combine (combine a b) c)).
  - change (map fst ?l) with (fst <$> l). apply fmap_Permutation.
    apply (pieces_by_label (λ r : F * F * F, r.2)); [done|].
    intros r Hr%elem_of_combine_r. by apply Hin.
  - by rewrite map_fst_combine by (rewrite length_combine; lia).
Qed.

(** X9. When the labels of [predicted_classes.csv] compare equal under
    [==] exactly when they are the same value (no NaN among them), the
    class series of the top axes are, one for each distinct label, the
    points of the rows that carry this label, in the order of the rows.
    Put end to end they are the rows of the frame, each of them once:
    every predicted point is drawn in the series of its class and in no
    other.  No class series is empty, and together they hold as many
    points as the frame has rows. *)
Theorem every_row_in_one_series file w p g c w' (pa pb pcls : list F) :
  plot_comparison file w = (inr (p, g, c), w') →
  df_get p "feature_1" = Some (SFloat pa) →
  df_get p "feature_2" = Some (SFloat pb) →
  df_get p "cls" = Some (SFloat pcls) →
  (∀ x y, x ∈ pcls → y ∈ pcls → f_eqb x y = true ↔ x = y) →
  ∃ evs order,
    w' = logged w evs ∧
    NoDup order ∧ (∀ v, v ∈ order ↔ v ∈ pcls) ∧
    filter (λ sr, auto_coloured sr = true) (series_on 0 evs)
    = map (λ v, plain_series (labelled_points v pa pb pcls)) order ∧
    concat (map (λ v, labelled_points v pa pb pcls) order) ≡ₚ combine pa pb ∧
    length (combine pa pb) = nrows p ∧
    sum_list (map series_size
                (filter (λ sr, auto_coloured sr = true) (series_on 0 evs)))
    = nrows p ∧
    Forall (λ sr, 0 < series_size sr)
      (filter (λ sr, auto_coloured sr = true) (series_on 0 evs)).
Proof.
  intros Hrun Ha Hb Hcls Heq.
  destruct (plot_comparison_cases file w)
    as [(pa' & pb' & pc & ga & gb & gc & ca & cb & Hp & _ & _ & Hrun')
       |(e & n & Hrun' & _)]; [|congruence].
  cbv zeta in *.
  exists (read_events file ++ figure_events pa' pb' pc ga gb gc ca cb),
    (unique_from [] pcls).
  split; [congruence|].
  assert (Hpeq : p = [("feature_1", SFloat pa'); ("feature_2", SFloat pb');
                      ("cls", SFloat pc)]) by congruence.
  subst p. injection Ha as <-. injection Hb as <-. injection Hcls as <-.
  assert (Hlen : length pa' = length pb' ∧ length pb' = length pc).
  { unfold read_result in Hp. destruct (files w !! _) as [lp|]; [|done].
    apply parse_csv_names3 in Hp as (a & b & c' & [= <- <- <-] & Ha & Hb & Hc).
    split; congruence. }
  destruct Hlen as [Hab Hbc].
  assert (Hu : ∀ v, v ∈ unique_from [] pc ↔ v ∈ pc).
  { intros v. rewrite unique_from_elem. split; [tauto|].
    intros Hv. split; [done|apply not_elem_of_nil]. }
  split; [apply unique_from_NoDup|]. split; [exact Hu|].
  rewrite series_top, filter_app, filter_auto_class_series.
  rewrite (filter_cons_False (λ sr, auto_coloured sr = true)) by done.
  rewrite filter_nil, app_nil_r, nrows_names3.
  split.
  { apply map_ext_in. intros v Hv%list_elem_of_In%Hu.
    rewrite class_series_points by done. f_equal.
    apply class_points_labelled. intros x Hx. by apply Heq. }
  split.
  { apply labelled_points_all; [done|done|apply unique_from_NoDup|].
    intros v Hv. by apply Hu. }
  split; [rewrite length_combine; lia|].
  rewrite <- Hab in Hbc. rewrite Hbc.
  by apply class_sizes_add_up.
Qed.

(** X10. A label that is [==] to no label of the column, itself included
    (NaN, as a record without a label field reads), still counts as a
    class for [unique()]: its scatter call is made, with no points. *)
Theorem unmatched_label_empty_series file w p g c w' (pcls : list F) v :
  plot_comparison file w = (inr (p, g, c), w') →
  df_get p "cls" = Some (SFloat pcls) →
  v ∈ pcls →
  (∀ x, x ∈ pcls → f_eqb x v = false) →
  ∃ evs, w' = logged w evs ∧
         (SFloat [], SFloat [], None, None, None) ∈ series_on 0 evs.
Proof.
  intros Hrun Hcls Hv Hno.
  destruct (plot_comparison_cases file w)
    as [(pa & pb & pc & ga & gb & gc & ca & cb & _ & _ & _ & Hrun')
       |(e & n & Hrun' & _)]; [|congruence].
  cbv zeta in *.
  exists (read_events file ++ figure_events pa pb pc ga gb gc ca cb).
  split; [congruence|].
  assert (Hpeq : p = [("feature_1", SFloat pa); ("feature_2", SFloat pb);
                      ("cls", SFloat pc)]) by congruence.
  subst p. injection Hcls as <-.
  rewrite series_top. apply elem_of_app. left.
  apply list_elem_of_fmap. exists v.
  rewrite !mask_all_false by done. split; [done|].
  apply unique_from_elem. split; [done|apply not_elem_of_nil].
Qed.

End Comparator_more.

(** ** The two scripts one after the other *)

Section Pipeline.
Context {F G : Type} `{!Float64 F} `{!Rng G F} `{!OsPath}.
Implicit Types (w : World G F).

Lemma out_path_same file_g file_c :
  dirname file_g = dirname file_c → out_path file_g = out_path file_c.
Proof. unfold out_path. by intros ->. Qed.

Lemma Forall_filter_weaken {A} (P Q : A → Prop) `{!∀ a, Decision (Q a)} l :
  Forall P l → Forall P (filter Q l).
Proof.
  intros Hall. apply Forall_forall. intros x Hx%list_elem_of_filter.
  rewrite Forall_forall in Hall. apply Hall, Hx.
Qed.

(** The lines of a ground truth are three fields wide when no float text
    holds the separator. *)
Lemma ground_truth_lines_width (xs ys : list F) :
  (∀ x : F, sep_free ";" (f_repr x)) →
  Forall (λ l, (length (split_fields ";" l) ≤ 3)%nat)
    (csv_lines ";" (dataset xs ys)).
Proof.
  intros Hfree. rewrite csv_lines_dataset. constructor; [cbn; lia|].
  apply Forall_map, Forall_forall. intros i _.
  rewrite split_join; [done|done|].
  repeat constructor; apply sep_free_nth.
  - apply Forall_map, Forall_forall. by intros x _.
  - apply Forall_map, Forall_forall. by intros x _.
  - apply Forall_map, Forall_forall. intros x _. apply str_of_Z_sep_free.
Qed.

(** X11. The [ground_truth.csv] of the Generator cannot stand in for
    [predicted_classes.csv]: that file is read without skipping a line,
    so the header the Generator wrote reaches the float conversion and
    the Comparator stops with [ValueError] at its first read.  (Stated
    for float texts without [;] and a conversion that rejects
    [feature_0].) *)
Theorem ground_truth_is_no_prediction file_g file_c argv w :
  dirname file_g = dirname file_c →
  (∀ x : F, sep_free ";" (f_repr x)) →
  f_parse (F:=F) "feature_0" = None →
  ∃ (df : DataFrame F) w1 lines,
    gen_ex_data file_g argv w = (inr df, w1) ∧
    files w1 !! (out_path file_g +:+ "/ground_truth.csv") = Some lines ∧
    plot_comparison file_c
      (put_file w1 (out_path file_c +:+ "/predicted_classes.csv") lines)
    = (inl ValueError,
       logged (put_file w1 (out_path file_c +:+ "/predicted_classes.csv") lines)
         [EvReadCsv (out_path file_c +:+ "/predicted_classes.csv") ";"
            ["feature_1"; "feature_2"; "cls"] 0]).
Proof.
  intros Hdir Hfree Hbad.
  destruct (gen_ex_data_files file_g w) as (xs & ys & _ & _ & Hrun).
  destruct (Hrun argv) as (w1 & E & _ & Hg).
  exists (dataset xs ys), w1, (csv_lines ";" (dataset xs ys)).
  split; [exact E|]. split; [exact Hg|].
  set (w2 := put_file w1 (out_path file_c +:+ "/predicted_classes.csv")
               (csv_lines ";" (dataset xs ys))).
  assert (Hread : read_result w2 (out_path file_c +:+ "/predicted_classes.csv")
                    names3 0 = inl ValueError).
  { unfold read_result, w2, put_file. cbn [files]. rewrite lookup_insert_eq.
    apply (parse_csv_non_numeric names3 0 _ "feature_0;feature_1;cls" "feature_0").
    - apply Forall_filter_weaken, ground_truth_lines_width, Hfree.
    - unfold data_lines. rewrite csv_lines_dataset.
      change (drop 0 ?l) with l.
      rewrite filter_cons_True by done. apply list_elem_of_here.
    - apply list_elem_of_here.
    - exact Hbad. }
  rewrite plot_comparison_unfold, load_inputs_run, Hread. reflexivity.
Qed.

Lemma unique_from_skip {A} `{!EqDecision A} (seen l : list A) a n :
  a ∈ seen → unique_from seen (replicate n a ++ l) = unique_from seen l.
Proof.
  intros Hin. induction n as [|n IH]; [done|].
  cbn [replicate app unique_from]. by rewrite decide_True.
Qed.

Lemma unique_from_block {A} `{!EqDecision A} (seen l : list A) a n :
  a ∉ seen →
  unique_from seen (replicate (S n) a ++ l) = a :: unique_from (a :: seen) l.
Proof.
  intros Hnot. cbn [replicate app unique_from]. rewrite decide_False by done.
  f_equal. apply unique_from_skip, list_elem_of_here.
Qed.

Lemma count_block (a v : F) n :
  length (filter (λ x, f_eqb x v = true) (replicate n a))
  = if f_eqb a v then n else 0.
Proof.
  induction n as [|n IH]; cbn [replicate]; [by destruct (f_eqb a v)|].
  destruct (f_eqb a v) eqn:E.
  - rewrite filter_cons_True by done. cbn [length]. by rewrite IH.
  - by rewrite filter_cons_False by (by rewrite E).
Qed.

Lemma Forall2_map_eq {A B} (h : A → B) l k :
  Forall2 (λ a b, b = h a) l k → k = map h l.
Proof. induction 1; cbn; congruence. Qed.

Lemma series_bottom file (pa pb pc ga gb gc ca cb : list F) :
  series_on 1 (read_events file ++ figure_events pa pb pc ga gb gc ca cb)
  = map (λ v, (SFloat (mask_list (map (λ x, f_eqb x v) gc) ga),
               SFloat (mask_list (map (λ x, f_eqb x v) gc) gb),
               None, None, None)) (unique_from [] gc).
Proof.
  unfold figure_events. rewrite !series_on_app.
  rewrite series_on_class_same, series_on_class_other by done.
  cbn. by rewrite app_nil_r.
Qed.

Section With_laws.
Context (close : F → F → Prop) `{!FloatText F close}.

(** X12. The two scripts together: after a run of the Generator, once
    some program has put a [predicted_classes.csv] and a [clusters.csv]
    that load next to its files, the Comparator ends normally, holds a
    ground-truth frame of [N_CLASSES * N_SAMPLES] rows and draws on the
    bottom axes exactly [N_CLASSES] series of [N_SAMPLES] points each,
    in the order of the classes.  (Stated under the laws of the float
    text, for labels that the float [==] tells apart.) *)
Theorem generated_truth_plotted file_g file_c argv w pred centers
    (p c : DataFrame F) :
  dirname file_g = dirname file_c →
  (∀ i j : Z, (0 ≤ i < Z.of_nat N_CLASSES)%Z → (0 ≤ j < Z.of_nat N_CLASSES)%Z →
     f_eqb (f_of_int i) (f_of_int j) = true ↔ i = j) →
  parse_csv ";" names3 0 pred = inr p →
  parse_csv ";" names2 0 centers = inr c →
  ∃ (xs ys : list F) w1 (g : DataFrame F) evs,
    gen_ex_data file_g argv w = (inr (dataset xs ys), w1) ∧
    plot_comparison file_c
      (put_file (put_file w1 (out_path file_c +:+ "/predicted_classes.csv") pred)
                (out_path file_c +:+ "/clusters.csv") centers)
    = (inr (p, g, c),
       logged
         (put_file
            (put_file w1 (out_path file_c +:+ "/predicted_classes.csv") pred)
            (out_path file_c +:+ "/clusters.csv") centers) evs) ∧
    nrows g = N_CLASSES * N_SAMPLES ∧
    map series_size (series_on 1 evs) = replicate N_CLASSES N_SAMPLES.
Proof.
  intros Hdir Hdist Hp Hc.
  destruct (gen_ex_data_files file_g w) as (xs & ys & Hxs & Hys & Hrun).
  destruct (Hrun argv) as (w1 & E & _ & Hg).
  destruct (parse_ground_truth close xs ys Hxs Hys)
    as (xs' & ys' & cs' & Hparse & Hx & Hy & Hcs).
  apply Forall2_map_eq in Hcs.
  rewrite (out_path_same _ _ Hdir) in Hg.
  set (w2 := put_file
               (put_file w1 (out_path file_c +:+ "/predicted_classes.csv") pred)
               (out_path file_c +:+ "/clusters.csv") centers).
  assert (Hrp : read_result w2 (out_path file_c +:+ "/predicted_classes.csv")
                  names3 0 = inr p).
  { unfold read_result, w2, put_file. cbn [files].
    rewrite lookup_insert_ne by (intros E'; by apply append_inj_l in E').
    by rewrite lookup_insert_eq. }
  assert (Hrg : read_result w2 (out_path file_c +:+ "/ground_truth.csv")
                  names3 1
                = inr [("feature_1", SFloat xs'); ("feature_2", SFloat ys');
                       ("cls", SFloat cs')]).
  { unfold read_result, w2, put_file. cbn [files].
    rewrite !lookup_insert_ne by (intros E'; by apply append_inj_l in E').
    by rewrite Hg. }
  assert (Hrc : read_result w2 (out_path file_c +:+ "/clusters.csv")
                  names2 0 = inr c).
  { unfold read_result, w2, put_file. cbn [files]. by rewrite lookup_insert_eq. }
  destruct (plot_comparison_cases file_c w2)
    as [(pa & pb & pc & ga & gb & gc & ca & cb & Hp' & Hg' & Hc' & Hrun')
       |(e & n & _ & [He|[He|He]])]; [|congruence..].
  cbv zeta in *.
  rewrite Hrp in Hp'. rewrite Hrg in Hg'. rewrite Hrc in Hc'.
  injection Hp' as ->. injection Hg' as <- <- <-. injection Hc' as ->.
  exists xs, ys, w1,
    [("feature_1", SFloat xs'); ("feature_2", SFloat ys'); ("cls", SFloat cs')],
    (read_events file_c ++ figure_events pa pb pc xs' ys' cs' ca cb).
  split; [exact E|]. split; [exact Hrun'|].
  assert (Hlx : length xs' = N_CLASSES * N_SAMPLES)
    by (rewrite <- Hxs; symmetry; by eapply Forall2_length).
  split; [by rewrite nrows_names3|].
  rewrite series_bottom, map_map. cbn [series_size s_len].
  assert (Hlc : length xs' = length cs').
  { rewrite Hcs, length_map, grouped_labels_length. exact Hlx. }
  erewrite map_ext; [|intros v; by apply mask_count].
  subst cs'. change N_CLASSES with 3 in *. rewrite grouped_labels_3.
  rewrite !map_app.
  change (map f_of_int (replicate N_SAMPLES ?z))
    with (f_of_int <$> replicate N_SAMPLES z).
  rewrite !fmap_replicate.
  assert (H01 : f_of_int (F:=F) 0 ≠ f_of_int 1).
  { intros Heq. assert (Ht : f_eqb (F:=F) (f_of_int 0) (f_of_int 0) = true)
      by (apply Hdist; lia).
    rewrite Heq in Ht at 2. apply Hdist in Ht; lia. }
  assert (H02 : f_of_int (F:=F) 0 ≠ f_of_int 2).
  { intros Heq. assert (Ht : f_eqb (F:=F) (f_of_int 0) (f_of_int 0) = true)
      by (apply Hdist; lia).
    rewrite Heq in Ht at 2. apply Hdist in Ht; lia. }
  assert (H12 : f_of_int (F:=F) 1 ≠ f_of_int 2).
  { intros Heq. assert (Ht : f_eqb (F:=F) (f_of_int 1) (f_of_int 1) = true)
      by (apply Hdist; lia).
    rewrite Heq in Ht at 2. apply Hdist in Ht; lia. }
  assert (Hu : unique_from [] ((replicate N_SAMPLES (f_of_int (F:=F) 0)
                                  ++ replicate N_SAMPLES (f_of_int 1))
                                 ++ replicate N_SAMPLES (f_of_int 2))
               = [f_of_int 0; f_of_int 1; f_of_int 2]).
  { change N_SAMPLES with (S 99). rewrite <- app_assoc.
    rewrite unique_from_block by apply not_elem_of_nil.
    rewrite unique_from_block
      by (apply not_elem_of_cons; split; [congruence|apply not_elem_of_nil]).
    rewrite <- (app_nil_r (replicate (S 99) (f_of_int 2))).
    rewrite unique_from_block; [done|].
    repeat (apply not_elem_of_cons; split; [congruence|]). apply not_elem_of_nil. }
  rewrite Hu. cbn [map replicate].
  rewrite !filter_app, !length_app, !count_block.
  assert (Hb : ∀ i j, (0 ≤ i < 3)%Z → (0 ≤ j < 3)%Z → i ≠ j →
                 f_eqb (F:=F) (f_of_int i) (f_of_int j) = false).
  { intros i j Hi Hj Hne.
    destruct (f_eqb (f_of_int i) (f_of_int j)) eqn:Eb; [|done].
    apply Hdist in Eb; [done|lia|lia]. }
  assert (Ht : ∀ i, (0 ≤ i < 3)%Z →
                 f_eqb (F:=F) (f_of_int i) (f_of_int i) = true)
    by (intros i Hi; apply Hdist; lia).
  rewrite !Ht by lia. rewrite !Hb by lia.
  rewrite !Nat.add_0_r, !Nat.add_0_l. reflexivity.
Qed.

End With_laws.
End Pipeline.

(** ** The further statements at work on the small instance *)

Lemma IntFloat_eqb (a b : Z) :
  f_eqb (F:=IntFloat) (Some a) (Some b) = true ↔ a = b.
Proof. cbn. apply Z.eqb_eq. Qed.

(** X4, witness: a fresh disk and a used one, the same generator state. *)
Lemma generator_output_from_rng_witness :
  rng w0 = rng w_used ∧
  (gen_ex_data script ["gen_ex_data.py"] w0).1
  = (gen_ex_data script ["gen_ex_data.py"; "--plot"] w_used).1 ∧
  rng (gen_ex_data script ["gen_ex_data.py"] w0).2
  = rng (gen_ex_data script ["gen_ex_data.py"; "--plot"] w_used).2 ∧
  files (gen_ex_data script ["gen_ex_data.py"] w0).2
    !! (out_path script +:+ "/sample_data.csv")
  = files (gen_ex_data script ["gen_ex_data.py"; "--plot"] w_used).2
      !! (out_path script +:+ "/sample_data.csv") ∧
  files (gen_ex_data script ["gen_ex_data.py"] w0).2
    !! (out_path script +:+ "/ground_truth.csv")
  = files (gen_ex_data script ["gen_ex_data.py"; "--plot"] w_used).2
      !! (out_path script +:+ "/ground_truth.csv").
Proof.
  split; [reflexivity|].
  exact (generator_output_from_rng script ["gen_ex_data.py"]
           ["gen_ex_data.py"; "--plot"] w0 w_used eq_refl).
Defined.

(** X7, witness: the prediction loads, the ground truth is not there. *)
Lemma comparator_missing_input_witness :
  comparator_inputs script !! 1
  = Some (files_dir +:+ "/ground_truth.csv", ";"%char,
          ["feature_1"; "feature_2"; "cls"], 1) ∧
  files w_missing_truth !! (files_dir +:+ "/ground_truth.csv") = None ∧
  plot_comparison script w_missing_truth
  = (inl FileNotFoundError,
     logged w_missing_truth (take 2 (read_events script))).
Proof.
  assert (Hn : comparator_inputs script !! 1
               = Some (files_dir +:+ "/ground_truth.csv", ";"%char,
                       ["feature_1"; "feature_2"; "cls"], 1)) by reflexivity.
  assert (Hnone : files w_missing_truth !! (files_dir +:+ "/ground_truth.csv")
                  = None) by (vm_compute; reflexivity).
  split; [exact Hn|]. split; [exact Hnone|].
  apply (comparator_missing_input script w_missing_truth 1 _ _ _ Hn); [|exact Hnone].
  intros j p ns kk Hj Hlook. destruct j as [|j]; [|lia].
  injection Hlook as <- <- <-. eexists. vm_compute. reflexivity.
Defined.

(** X8, witness: the run on three predicted classes. *)
Lemma figure_layout_witness :
  let p : DataFrame IntFloat :=
    [("feature_1", SFloat [Some 1; Some 3; Some 5; Some 7]);
     ("feature_2", SFloat [Some 2; Some 4; Some 6; Some 8]);
     ("cls", SFloat [Some 0; Some 1; Some 0; Some 2])]%Z in
  let g : DataFrame IntFloat :=
    [("feature_1", SFloat [Some 1; Some 3]);
     ("feature_2", SFloat [Some 2; Some 4]);
     ("cls", SFloat [Some 0; Some 1])]%Z in
  let c : DataFrame IntFloat :=
    [("feature_1", SFloat [Some 2; Some 4]);
     ("feature_2", SFloat [Some 3; Some 5])]%Z in
  plot_comparison script w_three_classes
  = (inr (p, g, c), (plot_comparison script w_three_classes).2) ∧
  ∃ top bottom cx cy,
    (plot_comparison script w_three_classes).2
    = logged w_three_classes
        (read_events script ++ [EvSubplots 2 1] ++ top ++ bottom
           ++ [EvScatter 0 cx cy (Some "red") (Some 50%Z) (Some "x");
               EvSetTitle 0 "Prediction"; EvSetTitle 1 "Ground Truth";
               EvShow]) ∧
    Forall (λ e, ∃ x y, e = EvScatter 0 x y None None None) top ∧
    Forall (λ e, ∃ x y, e = EvScatter 1 x y None None None) bottom ∧
    df_get c "feature_1" = Some cx ∧ df_get c "feature_2" = Some cy.
Proof.
  intros p g c.
  assert (Hrun : plot_comparison script w_three_classes
                 = (inr (p, g, c), (plot_comparison script w_three_classes).2))
    by (vm_compute; reflexivity).
  split; [exact Hrun|].
  pose proof (figure_layout script w_three_classes p g c
                (plot_comparison script w_three_classes).2 Hrun) as Hlayout.
  exact Hlayout.
Defined.

(** X2, witness: on the empty disk the directory is made first. *)
Lemma output_directory_created_witness :
  files w0 !! out_path "/repo/scripts/gen_ex_data.py" = None ∧
  out_path "/repo/scripts/gen_ex_data.py"
    ∈ dirs (gen_ex_data "/repo/scripts/gen_ex_data.py" ["gen_ex_data.py"] w0).2 ∧
  (out_path "/repo/scripts/gen_ex_data.py" ∈ dirs w0 →
     dirs (gen_ex_data "/repo/scripts/gen_ex_data.py" ["gen_ex_data.py"] w0).2
     = dirs w0) ∧
  (out_path "/repo/scripts/gen_ex_data.py" ∉ dirs w0 →
     dirs (gen_ex_data "/repo/scripts/gen_ex_data.py" ["gen_ex_data.py"] w0).2
     = {[out_path "/repo/scripts/gen_ex_data.py"]} ∪ dirs w0) ∧
  ∃ evs,
    log (gen_ex_data "/repo/scripts/gen_ex_data.py" ["gen_ex_data.py"] w0).2
    = log w0 ++ evs ∧
    filter (λ e, is_mkdir e = true) evs
    = (if bool_decide (out_path "/repo/scripts/gen_ex_data.py" ∈ dirs w0)
       then [] else [EvMkdir (out_path "/repo/scripts/gen_ex_data.py")]) ∧
    (out_path "/repo/scripts/gen_ex_data.py" ∉ dirs w0 →
       ∃ rest, evs = EvMkdir (out_path "/repo/scripts/gen_ex_data.py") :: rest).
Proof.
  assert (Hfree : files w0 !! out_path "/repo/scripts/gen_ex_data.py" = None)
    by reflexivity.
  split; [exact Hfree|].
  pose proof (output_directory_created "/repo/scripts/gen_ex_data.py"
                ["gen_ex_data.py"] w0 Hfree) as Hdir.
  exact Hdir.
Defined.

(** X9, witness: four predicted points in three classes. *)
Lemma every_row_in_one_series_witness :
  let pa : list IntFloat := [Some 1; Some 3; Some 5; Some 7]%Z in
  let pb : list IntFloat := [Some 2; Some 4; Some 6; Some 8]%Z in
  let pcls : list IntFloat := [Some 0; Some 1; Some 0; Some 2]%Z in
  let p : DataFrame IntFloat := labelled_frame pa pb pcls in
  let g : DataFrame IntFloat :=
    [("feature_1", SFloat [Some 1; Some 3]);
     ("feature_2", SFloat [Some 2; Some 4]);
     ("cls", SFloat [Some 0; Some 1])]%Z in
  let c : DataFrame IntFloat :=
    [("feature_1", SFloat [Some 2; Some 4]);
     ("feature_2", SFloat [Some 3; Some 5])]%Z in
  plot_comparison script w_three_classes
  = (inr (p, g, c), (plot_comparison script w_three_classes).2) ∧
  (∀ x y, x ∈ pcls → y ∈ pcls → f_eqb x y = true ↔ x = y) ∧
  ∃ evs order,
    (plot_comparison script w_three_classes).2 = logged w_three_classes evs ∧
    NoDup order ∧ (∀ v, v ∈ order ↔ v ∈ pcls) ∧
    filter (λ sr, auto_coloured sr = true) (series_on 0 evs)
    = map (λ v, plain_series (labelled_points v pa pb pcls)) order ∧
    concat (map (λ v, labelled_points v pa pb pcls) order) ≡ₚ combine pa pb ∧
    length (combine pa pb) = nrows p ∧
    sum_list (map series_size
                (filter (λ sr, auto_coloured sr = true) (series_on 0 evs)))
    = nrows p ∧
    Forall (λ sr, 0 < series_size sr)
      (filter (λ sr, auto_coloured sr = true) (series_on 0 evs)).
Proof.
  intros pa pb pcls p g c.
  assert (Heq : ∀ x y : IntFloat,
            x ∈ pcls → y ∈ pcls → f_eqb x y = true ↔ x = y).
  { intros x y Hx Hy.
    assert (Hsx : ∃ a, x = Some a).
    { repeat (apply elem_of_cons in Hx as [->|Hx]; [by eexists|]).
      by apply elem_of_nil in Hx. }
    assert (Hsy : ∃ b, y = Some b).
    { repeat (apply elem_of_cons in Hy as [->|Hy]; [by eexists|]).
      by apply elem_of_nil in Hy. }
    destruct Hsx as [a ->]. destruct Hsy as [b ->].
    split; [intros E%IntFloat_eqb; by subst
           |intros [= ->]; by apply IntFloat_eqb]. }
  assert (Hrun : plot_comparison script w_three_classes
                 = (inr (p, g, c), (plot_comparison script w_three_classes).2))
    by (vm_compute; reflexivity).
  split; [exact Hrun|]. split; [exact Heq|].
  pose proof (every_row_in_one_series script w_three_classes p g c
                (plot_comparison script w_three_classes).2
                pa pb pcls Hrun eq_refl eq_refl eq_refl Heq) as Hrows.
  exact Hrows.
Defined.

(** X10, witness: the record [7;8] has no label; its class is NaN and its
    series is empty. *)
Lemma unmatched_label_empty_series_witness :
  let p : DataFrame IntFloat :=
    [("feature_1", SFloat [Some 1; Some 3; Some 7]);
     ("feature_2", SFloat [Some 2; Some 4; Some 8]);
     ("cls", SFloat [Some 0; Some 1; None])]%Z in
  let g : DataFrame IntFloat :=
    [("feature_1", SFloat [Some 1]); ("feature_2", SFloat [Some 2]);
     ("cls", SFloat [Some 0])]%Z in
  let c : DataFrame IntFloat :=
    [("feature_1", SFloat [Some 2]); ("feature_2", SFloat [Some 3])]%Z in
  plot_comparison script w_unlabelled
  = (inr (p, g, c), (plot_comparison script w_unlabelled).2) ∧
  ∃ evs,
    (plot_comparison script w_unlabelled).2 = logged w_unlabelled evs ∧
    (SFloat [], SFloat [], None, None, None) ∈ series_on 0 evs.
Proof.
  intros p g c.
  assert (Hin : (None : IntFloat) ∈ [Some 0; Some 1; None]%Z)
    by repeat constructor.
  assert (Hno : ∀ x : IntFloat, x ∈ [Some 0; Some 1; None]%Z →
                  f_eqb x None = false)
    by (intros x _; by destruct x).
  assert (Hrun : plot_comparison script w_unlabelled
                 = (inr (p, g, c), (plot_comparison script w_unlabelled).2))
    by (vm_compute; reflexivity).
  split; [exact Hrun|].
  pose proof (unmatched_label_empty_series script w_unlabelled p g c
                (plot_comparison script w_unlabelled).2
                [Some 0; Some 1; None]%Z None Hrun eq_refl Hin Hno) as Hempty.
  exact Hempty.
Defined.

(** X11, witness: the header of the generated ground truth is no number
    for the whole-number floats. *)
Lemma ground_truth_is_no_prediction_witness :
  dirname "/repo/scripts/gen_ex_data.py" = dirname script ∧
  (∀ x : IntFloat, sep_free ";" (f_repr x)) ∧
  f_parse (F:=IntFloat) "feature_0" = None ∧
  ∃ (df : DataFrame IntFloat) w1 lines,
    gen_ex_data "/repo/scripts/gen_ex_data.py" ["gen_ex_data.py"] w0
    = (inr df, w1) ∧
    files w1 !! (out_path "/repo/scripts/gen_ex_data.py" +:+ "/ground_truth.csv")
    = Some lines ∧
    plot_comparison script
      (put_file w1 (out_path script +:+ "/predicted_classes.csv") lines)
    = (inl ValueError,
       logged (put_file w1 (out_path script +:+ "/predicted_classes.csv") lines)
         [EvReadCsv (out_path script +:+ "/predicted_classes.csv") ";"
            ["feature_1"; "feature_2"; "cls"] 0]).
Proof.
  assert (Hfree : ∀ x : IntFloat, sep_free ";" (f_repr x))
    by apply (repr_sep_free (FloatText := IntFloat_text)).
  split; [reflexivity|]. split; [exact Hfree|]. split; [reflexivity|].
  pose proof (ground_truth_is_no_prediction "/repo/scripts/gen_ex_data.py"
                script ["gen_ex_data.py"] w0 eq_refl Hfree eq_refl) as Hstop.
  exact Hstop.
Defined.

(** X12, witness: a generated ground truth next to a prediction of one
    record and one cluster center. *)
Lemma generated_truth_plotted_witness :
  let p : DataFrame IntFloat :=
    [("feature_1", SFloat [Some 1]); ("feature_2", SFloat [Some 2]);
     ("cls", SFloat [Some 0])]%Z in
  let c : DataFrame IntFloat :=
    [("feature_1", SFloat [Some 2]); ("feature_2", SFloat [Some 3])]%Z in
  FloatText IntFloat eq ∧
  parse_csv ";" names3 0 ["1;2;0"] = inr p ∧
  parse_csv ";" names2 0 ["2;3"] = inr c ∧
  ∃ (xs ys : list IntFloat) w1 (g : DataFrame IntFloat) evs,
    gen_ex_data "/repo/scripts/gen_ex_data.py" ["gen_ex_data.py"] w0
    = (inr (dataset xs ys), w1) ∧
    plot_comparison script
      (put_file (put_file w1 (out_path script +:+ "/predicted_classes.csv")
                   ["1;2;0"])
                (out_path script +:+ "/clusters.csv") ["2;3"])
    = (inr (p, g, c),
       logged
         (put_file
            (put_file w1 (out_path script +:+ "/predicted_classes.csv")
               ["1;2;0"])
            (out_path script +:+ "/clusters.csv") ["2;3"]) evs) ∧
    nrows g = N_CLASSES * N_SAMPLES ∧
    map series_size (series_on 1 evs) = replicate N_CLASSES N_SAMPLES.
Proof.
  intros p c.
  assert (Hp : parse_csv ";" names3 0 ["1;2;0"] = inr p) by reflexivity.
  assert (Hc : parse_csv ";" names2 0 ["2;3"] = inr c) by reflexivity.
  split; [exact IntFloat_text|]. split; [exact Hp|]. split; [exact Hc|].
  assert (Hdist : ∀ i j : Z,
            (0 ≤ i < Z.of_nat N_CLASSES)%Z → (0 ≤ j < Z.of_nat N_CLASSES)%Z →
            f_eqb (F:=IntFloat) (f_of_int i) (f_of_int j) = true ↔ i = j)
    by (intros i j _ _; apply IntFloat_eqb).
  pose proof (@generated_truth_plotted IntFloat nat _ _ _ eq IntFloat_text
                "/repo/scripts/gen_ex_data.py" script ["gen_ex_data.py"] w0
                ["1;2;0"] ["2;3"] p c eq_refl Hdist Hp Hc) as Hplot.
  exact Hplot.
Defined.
